(** * Cluster-join retry controller of the agent (retryJoin / retryJoinWan)

    A shallow embedding of the two retry loops of package [agent]:
    [retryJoin] (LAN, with go-discover directives) and [retryJoinWan]
    (WAN, static addresses only).

    - Go [string] is a byte sequence: [String.string].
    - Go [int] is taken as the 64-bit two's complement integer of the
      usual build targets: a [Z] with the wrap-around written out in [incr].
    - Go [error] is an interface value that is either nil or carries a
      message: [Error := option string].
    - The calls the loops make on their collaborators ([discover.Addrs],
      [Agent.JoinLAN], [Agent.JoinWAN]) are fields of a class [Cluster] over an
      abstract world [W]; their Go result pairs stay pairs.
    - Everything the controller itself does to the outside (logger lines,
      the send on [retryJoinCh], [time.Sleep]) and every call it places is
      written, in order, to an event list carried by the monad [M].
    - A [for {}] loop has no bound: the loops take a fuel (the number of
      iterations observed) and answer [None] while still running. *)

From Stdlib Require Import ZArith List String Ascii Bool Lia.
Import ListNotations.

Local Open Scope Z_scope.
Local Open Scope string_scope.
Local Open Scope list_scope.

(** ** Strings *)

(** [strings.HasPrefix]. *)
Fixpoint HasPrefix (s prefix : string) {struct prefix} : bool :=
  match prefix with
  | EmptyString => true
  | String c prefix' =>
      match s with
      | EmptyString => false
      | String d s' => Ascii.eqb c d && HasPrefix s' prefix'
      end
  end.

(** [strings.Contains s substr]: [substr] starts at some index of [s]. *)
Fixpoint Contains (s substr : string) : bool :=
  HasPrefix s substr
  || match s with
     | EmptyString => false
     | String _ s' => Contains s' substr
     end.

(** ** Integers, errors, configuration *)

Definition intBits : Z := 64.
Definition MaxInt : Z := 2 ^ (intBits - 1) - 1.
Definition MinInt : Z := - 2 ^ (intBits - 1).

(** Two's complement reduction of a mathematical integer to a Go [int]. *)
Definition wrapInt (z : Z) : Z :=
  (z + 2 ^ (intBits - 1)) mod 2 ^ intBits - 2 ^ (intBits - 1).

(** [attempt++]. *)
Definition incr (attempt : Z) : Z := wrapInt (attempt + 1).

(** A Go [error]: [None] is nil, [Some msg] an error whose [Error()] is [msg]. *)
Definition Error : Type := option string.

(** [fmt.Errorf] with a constant format. *)
Definition Errorf (msg : string) : Error := Some msg.

(** The fields of the agent configuration the two loops read.
    Durations are [time.Duration] values (nanoseconds). *)
Record Config : Type := mkConfig {
  RetryJoin : list string;
  RetryInterval : Z;
  RetryMaxAttempts : Z;
  RetryJoinWan : list string;
  RetryIntervalWan : Z;
  RetryMaxAttemptsWan : Z
}.

(** ** Events *)

(** An operand of a [Printf] verb. *)
Inductive Value : Type :=
| VError (e : Error)
| VStrings (l : list string)
| VInt (n : Z)
| VDuration (d : Z).

Inductive Event : Type :=
| Printf (format : string) (args : list Value)  (* a.logger.Printf *)
| CallDiscover (directive : string)             (* discover.Addrs *)
| CallJoinLAN (servers : list string)           (* a.JoinLAN *)
| CallJoinWAN (servers : list string)           (* a.JoinWAN *)
| ChanSend (e : Error)                          (* a.retryJoinCh <- e *)
| Sleep (d : Z).                                (* time.Sleep *)

Definition isPrintf (e : Event) : bool :=
  match e with Printf _ _ => true | _ => false end.
Definition isDiscover (e : Event) : bool :=
  match e with CallDiscover _ => true | _ => false end.
Definition isJoinLAN (e : Event) : bool :=
  match e with CallJoinLAN _ => true | _ => false end.
Definition isJoinWAN (e : Event) : bool :=
  match e with CallJoinWAN _ => true | _ => false end.
Definition isJoin (e : Event) : bool := isJoinLAN e || isJoinWAN e.
Definition isChanSend (e : Event) : bool :=
  match e with ChanSend _ => true | _ => false end.
Definition isSleep (e : Event) : bool :=
  match e with Sleep _ => true | _ => false end.

(** Log level of a line: the bracketed tag its format starts with. *)
Definition isLevel (level : string) (e : Event) : bool :=
  match e with Printf format _ => HasPrefix format level | _ => false end.
Definition isWarn : Event -> bool := isLevel "[WARN]".

(** The line a successful join ends with. *)
Definition isJoinCompleted (e : Event) : bool :=
  match e with
  | Printf format _ =>
      HasPrefix format "[INFO] agent: Join completed."
      || HasPrefix format "[INFO] agent: Join -wan completed."
  | _ => false
  end.

Definition count (p : Event -> bool) (evs : list Event) : nat :=
  List.length (filter p evs).

(** ** Collaborators *)

(** The outside of the controller, over a world [W] it reads and changes. *)
Class Cluster (W : Type) : Type := {
  (** [discover.Addrs(cfg, l)]: addresses and error, as Go returns them. *)
  discoverAddrs : string -> W -> (list string * Error) * W;
  (** [a.JoinLAN(addrs)]: number of nodes joined and error. *)
  JoinLAN : list string -> W -> (Z * Error) * W;
  (** [a.JoinWAN(addrs)]. *)
  JoinWAN : list string -> W -> (Z * Error) * W
}.

(** ** The monad of the controller: world passing, events written in order *)

Definition M (W A : Type) : Type := W -> (A * W) * list Event.

Definition ret {W A} (a : A) : M W A := fun w => ((a, w), []).

Definition bind {W A B} (m : M W A) (k : A -> M W B) : M W B :=
  fun w =>
    let '((a, w1), e1) := m w in
    let '((b, w2), e2) := k a w1 in
    ((b, w2), e1 ++ e2).

Declare Scope agent_scope.
Delimit Scope agent_scope with agent.
Notation "x <- m ;; k" := (bind m (fun x => k))
  (at level 61, m at next level, right associativity) : agent_scope.
Notation "' p <- m ;; k" := (bind m (fun x => match x with p => k end))
  (at level 61, p pattern, m at next level, right associativity) : agent_scope.
Notation "m ;; k" := (bind m (fun _ => k))
  (at level 61, right associativity) : agent_scope.
Local Open Scope agent_scope.

Definition emit {W} (e : Event) : M W unit := fun w => ((tt, w), [e]).

(** A call on a collaborator: the call is written down, the world moves. *)
Definition call {W A} (e : Event) (f : W -> A * W) : M W A :=
  fun w => (f w, [e]).

Definition value {W A} (r : (A * W) * list Event) : A := fst (fst r).
Definition world {W A} (r : (A * W) * list Event) : W := snd (fst r).
Definition events {W A} (r : (A * W) * list Event) : list Event := snd r.

(** ** retryJoin *)

Definition marker : string := "provider=".

(** The [for _, addr := range cfg.RetryJoin] loop, on its two variables. *)
Fixpoint splitFrom (l : list string) (addrs : list string) (disco : string)
  : list string * string :=
  match l with
  | [] => (addrs, disco)
  | addr :: l' =>
      if Contains addr marker
      then splitFrom l' addrs addr
      else splitFrom l' (addrs ++ [addr]) disco
  end.

(** [var addrs []string; var disco string] and the loop over them. *)
Definition splitRetryJoin (l : list string) : list string * string :=
  splitFrom l [] "".

(** What a loop body tells its [for {}]: [return], or go round again with
    the updated counter. *)
Inductive Ctl : Type :=
| Return
| Continue (attempt : Z).

(** The end of a failed iteration. *)
Definition failed {W} (maxAttempts interval : Z) (exhausted warning : string)
  (err : Error) (attempt : Z) : M W Ctl :=
  let attempt := incr attempt in
  if (maxAttempts >? 0) && (attempt >? maxAttempts)
  then
    emit (ChanSend (Errorf exhausted)) ;;
    ret Return
  else
    emit (Printf warning [VError err; VDuration interval]) ;;
    emit (Sleep interval) ;;
    ret (Continue attempt).

Definition lanStart : Event := Printf "[INFO] agent: Joining cluster..." [].
Definition lanExhausted : string := "agent: max join retry exhausted, exiting".
Definition lanWarning : string := "[WARN] agent: Join failed: %v, retrying in %v".
Definition lanCompleted : string :=
  "[INFO] agent: Join completed. Synced with %d initial agents".

(** The [if disco != ""] block: the values of [servers] and [err] after it. *)
Definition discovered {W} {C : Cluster W} (disco : string) : M W (list string * Error) :=
  if String.eqb disco ""
  then ret ([], None)
  else
    '(servers, err) <- call (CallDiscover disco) (discoverAddrs disco) ;;
    match err with
    | Some _ => emit (Printf "[ERR] agent: %s" [VError err])
    | None => ret tt
    end ;;
    emit (Printf "[ERR] agent: Discovered servers: %v" [VStrings servers]) ;;
    ret (servers, err).

(** One round of the [for {}] of [retryJoin].  The [err] that [a.JoinLAN]
    returns is declared by [:=] inside the [else] block: it is a variable of
    that block, and the [err] read after the block is the outer one. *)
Definition retryJoinIter {W} {C : Cluster W} (cfg : Config)
  (addrs : list string) (disco : string) (attempt : Z) : M W Ctl :=
  '(servers, err) <- discovered disco ;;
  let servers := servers ++ addrs in
  match servers with
  | [] =>
      let err := Errorf "No servers to join" in
      failed (RetryMaxAttempts cfg) (RetryInterval cfg) lanExhausted lanWarning
        err attempt
  | _ :: _ =>
      '(n, err') <- call (CallJoinLAN servers) (JoinLAN servers) ;;
      match err' with
      | None =>
          emit (Printf lanCompleted [VInt n]) ;;
          ret Return
      | Some _ =>
          failed (RetryMaxAttempts cfg) (RetryInterval cfg) lanExhausted lanWarning
            err attempt
      end
  end.

(** A [for {}] observed for [fuel] rounds: [Some tt] when the body returned. *)
Fixpoint forever {W} (body : Z -> M W Ctl) (fuel : nat) (attempt : Z)
  : M W (option unit) :=
  match fuel with
  | O => ret None
  | S fuel' =>
      ctl <- body attempt ;;
      match ctl with
      | Return => ret (Some tt)
      | Continue attempt' => forever body fuel' attempt'
      end
  end.

Definition retryJoin {W} {C : Cluster W} (cfg : Config) (fuel : nat)
  : M W (option unit) :=
  match RetryJoin cfg with
  | [] => ret (Some tt)
  | _ :: _ =>
      let '(addrs, disco) := splitRetryJoin (RetryJoin cfg) in
      emit lanStart ;;
      forever (retryJoinIter cfg addrs disco) fuel 0
  end.

(** ** retryJoinWan *)

Definition wanStart : Event := Printf "[INFO] agent: Joining WAN cluster..." [].
Definition wanExhausted : string := "agent: max join -wan retry exhausted, exiting".
Definition wanWarning : string :=
  "[WARN] agent: Join -wan failed: %v, retrying in %v".
Definition wanCompleted : string :=
  "[INFO] agent: Join -wan completed. Synced with %d initial agents".

Definition retryJoinWanIter {W} {C : Cluster W} (cfg : Config) (attempt : Z)
  : M W Ctl :=
  '(n, err) <- call (CallJoinWAN (RetryJoinWan cfg)) (JoinWAN (RetryJoinWan cfg)) ;;
  match err with
  | None =>
      emit (Printf wanCompleted [VInt n]) ;;
      ret Return
  | Some _ =>
      failed (RetryMaxAttemptsWan cfg) (RetryIntervalWan cfg) wanExhausted wanWarning
        err attempt
  end.

Definition retryJoinWan {W} {C : Cluster W} (cfg : Config) (fuel : nat)
  : M W (option unit) :=
  match RetryJoinWan cfg with
  | [] => ret (Some tt)
  | _ :: _ =>
      emit wanStart ;;
      forever (retryJoinWanIter cfg) fuel 0
  end.

(** ** Concrete collaborators *)

(** A scripted outside: each call takes the next prepared answer; when the
    answers have run out, discovery finds nothing and joins are refused. *)
Record Script : Type := mkScript {
  discoveries : list (list string * Error);
  joins : list (Z * Error)
}.

Definition refused : Z * Error := (0, Some "connection refused").

Definition scriptedDiscover (_ : string) (w : Script)
  : (list string * Error) * Script :=
  match discoveries w with
  | [] => (([], None), w)
  | r :: rest => (r, mkScript rest (joins w))
  end.

Definition scriptedJoin (_ : list string) (w : Script) : (Z * Error) * Script :=
  match joins w with
  | [] => (refused, w)
  | r :: rest => (r, mkScript (discoveries w) rest)
  end.

Definition scripted : Cluster Script := {|
  discoverAddrs := scriptedDiscover;
  JoinLAN := scriptedJoin;
  JoinWAN := scriptedJoin
|}.

(** An outside that refuses every join and discovers nothing; its world
    counts the calls it has received. *)
Definition refusing : Cluster nat := {|
  discoverAddrs := fun _ w => (([], None), S w);
  JoinLAN := fun _ w => (refused, S w);
  JoinWAN := fun _ w => (refused, S w)
|}.

(** The outside in which nothing answers. *)
Definition silent : Script := mkScript [] [].

Definition lanConfig (l : list string) (maxAttempts : Z) : Config :=
  mkConfig l 30000000000 maxAttempts [] 30000000000 0.

Definition wanConfig (l : list string) (maxAttempts : Z) : Config :=
  mkConfig [] 30000000000 0 l 30000000000 maxAttempts.

(** ** The address resolver, in the words of the specification

    Entries without the marker, in their order, are the static addresses;
    the last entry with the marker, if there is one, is the directive. *)

Fixpoint lastOption {A} (l : list A) : option A :=
  match l with
  | [] => None
  | [x] => Some x
  | _ :: l' => lastOption l'
  end.

Definition AddressResolver (joinSpec : list string) : list string * option string :=
  (filter (fun entry => negb (Contains entry marker)) joinSpec,
   lastOption (filter (fun entry => Contains entry marker) joinSpec)).

(** How the loop reads [disco]: the empty string stands for no directive. *)
Definition directive (disco : string) : option string :=
  if String.eqb disco "" then None else Some disco.

(** ** Notions the statements are written with *)

(** An event that neither ends a round nor ends the run. *)
Definition quiet (e : Event) : bool :=
  negb (isSleep e || isWarn e || isChanSend e || isJoinCompleted e).

(** [k] rounds that failed and were retried, and nothing final yet. *)
Record Calm (k : nat) (evs : list Event) : Prop := mkCalm {
  calm_sleeps : count isSleep evs = k;
  calm_warnings : count isWarn evs = k;
  calm_sends : count isChanSend evs = 0%nat;
  calm_completed : count isJoinCompleted evs = 0%nat
}.

(** What a round of either loop does, seen from its events: some quiet
    events of the attempt itself, then one of three endings. *)
Inductive IterShape {W} (maxAttempts interval : Z) (msg : string) (attempt : Z)
  : (Ctl * W) * list Event -> Prop :=
| iter_succeeded (pre : list Event) (fmt : string) (n : Z) (w' : W) :
    Forall (fun e => quiet e = true) pre ->
    isJoinCompleted (Printf fmt [VInt n]) = true ->
    IterShape maxAttempts interval msg attempt
      ((Return, w'), pre ++ [Printf fmt [VInt n]])
| iter_exhausted (pre : list Event) (w' : W) :
    Forall (fun e => quiet e = true) pre ->
    maxAttempts > 0 -> incr attempt > maxAttempts ->
    IterShape maxAttempts interval msg attempt
      ((Return, w'), pre ++ [ChanSend (Errorf msg)])
| iter_retrying (pre : list Event) (fmt : string) (err : Error) (w' : W) :
    Forall (fun e => quiet e = true) pre ->
    isWarn (Printf fmt [VError err; VDuration interval]) = true ->
    isJoinCompleted (Printf fmt [VError err; VDuration interval]) = false ->
    ~ (maxAttempts > 0 /\ incr attempt > maxAttempts) ->
    IterShape maxAttempts interval msg attempt
      ((Continue (incr attempt), w'),
       pre ++ [Printf fmt [VError err; VDuration interval]; Sleep interval]).

(** [servers], [err] and the world after the [if disco != ""] block. *)
Definition resolution {W} {C : Cluster W} (disco : string) (w : W)
  : (list string * Error) * W :=
  if String.eqb disco "" then (([], None), w) else discoverAddrs disco w.

(** Events put in front of the events of a computation. *)
Definition after {W A} (evs : list Event) (r : (A * W) * list Event)
  : (A * W) * list Event :=
  (fst r, evs ++ snd r).

(** An event of the discovery block: the call or an [ERR] line. *)
Definition isDiscovery (e : Event) : bool := isDiscover e || isLevel "[ERR]" e.

(** Rounds a [for {}] has gone through within [fuel]. *)
Fixpoint rounds {W} (body : Z -> M W Ctl) (fuel : nat) (attempt : Z) (w : W)
  : nat :=
  match fuel with
  | O => O
  | S fuel' =>
      match body attempt w with
      | ((Return, _), _) => 1%nat
      | ((Continue attempt', w'), _) => S (rounds body fuel' attempt' w')
      end
  end.

(** What a run looks like after [k] rounds: still going, or ended by the
    completion line, or ended by the send on the channel. *)
Inductive RunShape (maxAttempts : Z) (msg : string)
  : nat -> option unit -> list Event -> Prop :=
| run_going (k : nat) (evs : list Event) :
    Calm k evs ->
    RunShape maxAttempts msg k None evs
| run_succeeded (k : nat) (pre : list Event) (fmt : string) (n : Z) :
    Calm k pre ->
    isJoinCompleted (Printf fmt [VInt n]) = true ->
    RunShape maxAttempts msg (S k) (Some tt) (pre ++ [Printf fmt [VInt n]])
| run_exhausted (k : nat) (pre : list Event) :
    Calm k pre ->
    maxAttempts > 0 ->
    RunShape maxAttempts msg (S k) (Some tt) (pre ++ [ChanSend (Errorf msg)]).

(** The static addresses and the directive the LAN loop runs with. *)
Definition lanAddrs (cfg : Config) : list string :=
  fst (splitRetryJoin (RetryJoin cfg)).
Definition lanDisco (cfg : Config) : string :=
  snd (splitRetryJoin (RetryJoin cfg)).

Definition lanRounds {W} {C : Cluster W} (cfg : Config) (fuel : nat) (w : W)
  : nat :=
  rounds (retryJoinIter cfg (lanAddrs cfg) (lanDisco cfg)) fuel 0 w.

Definition wanRounds {W} {C : Cluster W} (cfg : Config) (fuel : nat) (w : W)
  : nat :=
  rounds (retryJoinWanIter cfg) fuel 0 w.

(** What the end of a failed round amounts to, for the counter [attempt] the
    round started with and the error [err] its warning shows. *)
Definition FailedRound {W} (maxAttempts interval : Z) (exhausted warning : string)
  (err : Error) (attempt : Z) (r : (Ctl * W) * list Event) : Prop :=
  let over := maxAttempts > 0 /\ incr attempt > maxAttempts in
  (value r = Return <-> over)
  /\ (count isChanSend (events r) = 1%nat <-> over)
  /\ (over ->
      exists pre, events r = pre ++ [ChanSend (Errorf exhausted)] /\ Calm 0 pre)
  /\ (~ over ->
      value r = Continue (incr attempt)
      /\ count isChanSend (events r) = 0%nat
      /\ exists pre,
           events r
           = pre ++ [Printf warning [VError err; VDuration interval]; Sleep interval]
           /\ Calm 0 pre).

(** An event a WAN run may show: a join call only with the configured list
    itself, and nothing of discovery or of the LAN. *)
Definition wanVerbatim (cfg : Config) (e : Event) : Prop :=
  match e with
  | CallJoinWAN servers => servers = RetryJoinWan cfg
  | CallDiscover _ | CallJoinLAN _ => False
  | _ => True
  end.

(** The candidate list of a LAN round: what was discovered, then the static
    addresses ([servers = append(servers, addrs...)]). *)
Definition lanCandidates {W} {C : Cluster W} (addrs : list string)
  (disco : string) (w : W) : list string :=
  fst (fst (resolution disco w)) ++ addrs.

(** The answer of [JoinLAN] to the candidates, in the world discovery left. *)
Definition lanJoinError {W} {C : Cluster W} (addrs : list string)
  (disco : string) (w : W) : Error :=
  snd (fst (JoinLAN (lanCandidates addrs disco w) (snd (resolution disco w)))).

(** The outer [err] as the end of a LAN round reads it. *)
Definition lanErr {W} {C : Cluster W} (addrs : list string)
  (disco : string) (w : W) : Error :=
  match lanCandidates addrs disco w with
  | [] => Errorf "No servers to join"
  | _ :: _ => snd (fst (resolution disco w))
  end.

(** A LAN round fails: nothing to join, or [JoinLAN] answers with an error. *)
Definition lanFails {W} {C : Cluster W} (addrs : list string)
  (disco : string) (w : W) : Prop :=
  lanCandidates addrs disco w = [] \/ lanJoinError addrs disco w <> None.

(** A WAN round fails: [JoinWAN] answers with an error. *)
Definition wanFails {W} {C : Cluster W} (cfg : Config) (w : W) : Prop :=
  snd (fst (JoinWAN (RetryJoinWan cfg) w)) <> None.

(** Discovery resolution fails: [discover.Addrs] answers with an error. *)
Definition discoveryFails {W} {C : Cluster W} (disco : string) (w : W) : Prop :=
  snd (fst (resolution disco w)) <> None.

(** What a run without a bound can look like. *)
Definition Unbounded (fuel k : nat) (r : (option unit * list Event)) : Prop :=
  count isChanSend (snd r) = 0%nat
  /\ (fst r = Some tt -> count isJoinCompleted (snd r) = 1%nat)
  /\ (count isJoinCompleted (snd r) = 0%nat ->
      fst r = None /\ k = fuel /\ count isSleep (snd r) = fuel).


(** ** Notions for the further properties of the two loops *)

(** Two configurations that the LAN loop cannot tell apart: the same list
    and interval, and the same bound or two bounds that both mean none. *)
Definition lanAgree (cfg cfg' : Config) : Prop :=
  RetryJoin cfg = RetryJoin cfg'
  /\ RetryInterval cfg = RetryInterval cfg'
  /\ (RetryMaxAttempts cfg = RetryMaxAttempts cfg'
      \/ (RetryMaxAttempts cfg <= 0 /\ RetryMaxAttempts cfg' <= 0)).

(** Likewise for the WAN loop. *)
Definition wanAgree (cfg cfg' : Config) : Prop :=
  RetryJoinWan cfg = RetryJoinWan cfg'
  /\ RetryIntervalWan cfg = RetryIntervalWan cfg'
  /\ (RetryMaxAttemptsWan cfg = RetryMaxAttemptsWan cfg'
      \/ (RetryMaxAttemptsWan cfg <= 0 /\ RetryMaxAttemptsWan cfg' <= 0)).

(** A sleep is for [interval], and a warning announces [interval]. *)
Definition paced (interval : Z) (e : Event) : Prop :=
  match e with
  | Sleep d => d = interval
  | Printf format args =>
      isWarn e = true -> exists err, args = [VError err; VDuration interval]
  | _ => True
  end.

(** A discovery call is for the directive [d], if there is one at all. *)
Definition resolves (d : option string) (e : Event) : Prop :=
  match e with
  | CallDiscover directive => d = Some directive
  | _ => True
  end.

(** An event that is no call on the LAN side. *)
Definition wanOnly (e : Event) : Prop :=
  match e with
  | CallDiscover _ | CallJoinLAN _ => False
  | _ => True
  end.

(** An event that is no call on the WAN side. *)
Definition lanOnly (e : Event) : Prop :=
  match e with
  | CallJoinWAN _ => False
  | _ => True
  end.

(** A script in which the next [k] joins are refused and the one after
    them is answered with [n] nodes. *)
Definition refusedThenJoined (k : nat) (n : Z)
  (ds : list (list string * Error)) (js : list (Z * Error)) : Script :=
  mkScript ds (repeat refused k ++ (n, None) :: js).

(** The events of a WAN round whose join is refused and retried. *)
Definition wanRefusedRound (cfg : Config) : list Event :=
  [CallJoinWAN (RetryJoinWan cfg);
   Printf wanWarning [VError (snd refused); VDuration (RetryIntervalWan cfg)];
   Sleep (RetryIntervalWan cfg)].

(** The events of a LAN round without directive whose join is refused and
    retried: the warning shows the outer [err], which is nil. *)
Definition lanRefusedRound (cfg : Config) : list Event :=
  [CallJoinLAN (lanAddrs cfg);
   Printf lanWarning [VError None; VDuration (RetryInterval cfg)];
   Sleep (RetryInterval cfg)].

(** A bound that lets the round numbered [k + 1] take place: none, or at
    least [k]. *)
Definition allows (maxAttempts : Z) (k : nat) : Prop :=
  maxAttempts <= 0 \/ Z.of_nat k <= maxAttempts <= MaxInt.

(** A warning, if [e] is one, shows the error [err]. *)
Definition warnsOf (err : Error) (e : Event) : Prop :=
  match e with
  | Printf format args =>
      isWarn e = true -> exists d, args = [VError err; VDuration d]
  | _ => True
  end.

(** ** The Docker Engine client (docker.go)

    - [strings.SplitN] is embedded for a separator that is not empty; what Go
      does for the empty one (cutting into UTF-8 sequences, [explode]) is a
      parameter, and so is the constant [DefaultDockerHost], which the
      package declares per platform.
    - An [error] built by [fmt.Errorf] keeps its format and operands; an error
      that comes out of a library is a message.
    - [http], [json], [circbuf] and [io] are fields of a class [Engine] over
      a world [W], a type [S] of response bodies and a type [B] of buffers.
    - Indexing a slice out of range and calling through a nil pointer panic:
      a result is [Returns] or [Panics]. *)

(** [s[:m]]. *)
Fixpoint sliceTo (s : string) (m : nat) {struct m} : string :=
  match m, s with
  | S m', String c s' => String c (sliceTo s' m')
  | _, _ => EmptyString
  end.

(** [s[m:]]. *)
Fixpoint sliceFrom (s : string) (m : nat) {struct m} : string :=
  match m, s with
  | S m', String _ s' => sliceFrom s' m'
  | _, _ => s
  end.

(** [strings.Index]: where [substr] first starts in [s], or -1. *)
Fixpoint Index (s substr : string) : Z :=
  if HasPrefix s substr then 0
  else
    match s with
    | EmptyString => -1
    | String _ s' =>
        let m := Index s' substr in
        if (m <? 0)%Z then -1 else m + 1
    end.

(** The loop of [strings.Count] for a separator that is not empty; each
    round takes at least one byte off [s]. *)
Fixpoint countLoop (fuel : nat) (s sep : string) : Z :=
  match fuel with
  | O => 0
  | S fuel' =>
      let i := Index s sep in
      if (i =? -1)%Z then 0
      else 1 + countLoop fuel' (sliceFrom s (Z.to_nat i + String.length sep)) sep
  end.

Definition Count (s sep : string) : Z := countLoop (S (String.length s)) s sep.

(** The [for i < n] loop of [genSplit], [rounds] being [n] at its start. *)
Fixpoint splitLoop (rounds : nat) (s sep : string) (sepSave : Z) : list string :=
  match rounds with
  | O => [s]
  | S rounds' =>
      let m := Index s sep in
      if (m <? 0)%Z then [s]
      else
        sliceTo s (Z.to_nat (m + sepSave))
        :: splitLoop rounds' (sliceFrom s (Z.to_nat m + String.length sep))
             sep sepSave
  end.

(** A format operand of [fmt.Errorf]. *)
Inductive Operand : Type :=
| OString (s : string)
| OInt (n : Z)
| OError (e : Fault)
| OBuffer (content : option string)  (* a [*circbuf.Buffer]: nil, or its bytes *)

(** An [error] of the client. *)
with Fault : Type :=
| Errorf_ (format : string) (operands : list Operand)  (* fmt.Errorf *)
| Foreign (message : string).                         (* made by a library *)

(** What a call of a Go function comes to. *)
Inductive Go (A : Type) : Type :=
| Returns (a : A)
| Panics.
Arguments Returns {A} a.
Arguments Panics {A}.

(** [http.Client]: its transport is the default one, or the one that dials
    [net.Dial(network, addr)] whatever it is asked to reach. *)
Record HttpClient : Type := mkHttpClient {
  Transport : option (string * string)
}.

Record DockerClient : Type := mkDockerClient {
  network : string;
  addr : string;
  baseurl : string;
  maxbuf : Z;
  client : HttpClient
}.

Section Strings.
Variable explode : string -> Z -> list string.

(** [strings.genSplit]. *)
Definition genSplit (s sep : string) (sepSave n : Z) : list string :=
  if (n =? 0)%Z then []
  else if String.eqb sep "" then explode s n
  else
    let n := if (n <? 0)%Z then Count s sep + 1 else n in
    splitLoop (Z.to_nat (n - 1)) s sep sepSave.

(** [strings.SplitN]. *)
Definition SplitN (s sep : string) (n : Z) : list string := genSplit s sep 0 n.

Variable DefaultDockerHost : string.

Definition NewDockerClient (host : string) (maxbuf : Z)
  : Go (option DockerClient * option Fault) :=
  let host := if String.eqb host "" then DefaultDockerHost else host in
  let p := SplitN host "://" 2 in
  match p with
  | [_] => Returns (None, Some (Errorf_ "invalid docker host: %s" [OString host]))
  | [] => Panics
  | network :: addr :: _ =>
      let basepath := ("http://" ++ addr)%string in
      let basepath := if String.eqb network "unix" then "http://unix" else basepath in
      let client := mkHttpClient None in
      let client :=
        if String.eqb network "unix"
        then mkHttpClient (Some (network, addr))
        else client in
      Returns (Some (mkDockerClient network addr basepath maxbuf client), None)
  end.
End Strings.

(** The host [NewDockerClient] works on: the default for the empty one. *)
Definition effectiveHost (DefaultDockerHost host : string) : string :=
  if String.eqb host "" then DefaultDockerHost else host.

(** The client made for a network and an address. *)
Definition clientFor (network addr : string) (maxbuf : Z) : DockerClient :=
  if String.eqb network "unix"
  then mkDockerClient network addr "http://unix" maxbuf
         (mkHttpClient (Some (network, addr)))
  else mkDockerClient network addr ("http://" ++ addr) maxbuf (mkHttpClient None).

(** The two values the client sends as JSON. *)
Inductive Payload : Type :=
| CreateExecData (AttachStdin AttachStdout AttachStderr Tty : bool)
    (Cmd : list string)
| StartExecData (Detach Tty : bool).

(** What the client decides of a request. *)
Record Request : Type := mkRequest {
  Method : string;
  URL : string;
  Body : option string;
  ContentType : option string
}.

(** What the client reads of a response; [S] is the type of bodies. *)
Record Response (S : Type) : Type := mkResponse {
  StatusCode : Z;
  RespBody : S
}.
Arguments mkResponse {S} _ _.
Arguments StatusCode {S} _.
Arguments RespBody {S} _.

(** The libraries under the client. *)
Class Engine (W S B : Type) : Type := {
  (** [http.NewRequest(method, url, nil)]: its error. *)
  NewRequest : string -> string -> option Fault;
  (** [json.NewEncoder(&b).Encode(v)]: what it wrote and its error. *)
  Encode : Payload -> string * option Fault;
  (** [client.Do(req)]: a response or an error. *)
  Do : HttpClient -> Request -> W -> (Response S + Fault) * W;
  (** [circbuf.NewBuffer(size)]: a buffer or an error. *)
  NewBuffer : Z -> B + Fault;
  (** [io.Copy(b, body)]: the buffer after the copy and the error. *)
  Copy : B -> S -> W -> (B * option Fault) * W;
  (** [body.Close()]. *)
  Close : S -> W -> W;
  (** [b.Bytes()]. *)
  Bytes : B -> string;
  (** [json.NewDecoder(r).Decode(&resp)] for [struct{ Id string }]. *)
  DecodeId : string -> string * option Fault;
  (** The same for [struct{ ExitCode int }]. *)
  DecodeExitCode : string -> Z * option Fault
}.

(** What the client does on the connection, in order. *)
Inductive Step : Type :=
| Sent (c : HttpClient) (req : Request)  (* c.client.Do(req) *)
| Copied                                 (* io.Copy(b, resp.Body) *)
| Closed.                                (* resp.Body.Close() *)

Definition isSent (s : Step) : bool :=
  match s with Sent _ _ => true | _ => false end.
Definition isClosed (s : Step) : bool :=
  match s with Closed => true | _ => false end.

Definition steps (p : Step -> bool) (l : list Step) : nat :=
  List.length (filter p l).

(** The monad of the client: world passing, steps written in order. *)
Definition IO (W A : Type) : Type := W -> (A * W) * list Step.

Definition ioRet {W A} (a : A) : IO W A := fun w => ((a, w), []).

Definition ioBind {W A B} (m : IO W A) (k : A -> IO W B) : IO W B :=
  fun w =>
    let '((a, w1), s1) := m w in
    let '((b, w2), s2) := k a w1 in
    ((b, w2), s1 ++ s2).

Declare Scope docker_scope.
Delimit Scope docker_scope with docker.
Notation "x <- m ;; k" := (ioBind m (fun x => k))
  (at level 61, m at next level, right associativity) : docker_scope.
Notation "' p <- m ;; k" := (ioBind m (fun x => match x with p => k end))
  (at level 61, p pattern, m at next level, right associativity) : docker_scope.
Notation "m ;; k" := (ioBind m (fun _ => k))
  (at level 61, right associativity) : docker_scope.

Definition result {W A} (r : (A * W) * list Step) : A := fst (fst r).
Definition trail {W A} (r : (A * W) * list Step) : list Step := snd r.

Definition StatusOK : Z := 200.
Definition StatusCreated : Z := 201.

Section Client.
Context {W S B : Type} {E : Engine W S B}.
Local Open Scope docker_scope.

Definition send (c : HttpClient) (req : Request) : IO W (Response S + Fault) :=
  fun w => (Do c req w, [Sent c req]).

Definition copy (b : B) (body : S) : IO W (B * option Fault) :=
  fun w => (Copy b body w, [Copied]).

Definition close (body : S) : IO W unit :=
  fun w => ((tt, Close body w), [Closed]).

(** The request of [DockerClient_call] as it is when sent, or the error that keeps it
    from being sent. *)
Definition request (c : DockerClient) (method uri : string) (v : option Payload)
  : Request + Fault :=
  let urlstr := (baseurl c ++ uri)%string in
  match NewRequest method urlstr with
  | Some err => inr err
  | None =>
      match v with
      | Some data =>
          let '(b, err) := Encode data in
          match err with
          | Some err => inr err
          | None => inl (mkRequest method urlstr (Some b) (Some "application/json"))
          end
      | None => inl (mkRequest method urlstr None None)
      end
  end.

(** [func (c *DockerClient) call] (the name [call] is taken by the monad of
    the retry loops).  The deferred [Close] runs when the function returns,
    on each path below the [defer]. *)
Definition DockerClient_call (c : DockerClient) (method uri : string) (okStatus : Z)
  (v : option Payload) : IO W (option B * option Fault) :=
  let urlstr := (baseurl c ++ uri)%string in
  match request c method uri v with
  | inr err => ioRet (None, Some err)
  | inl req =>
      r <- send (client c) req ;;
      match r with
      | inr err => ioRet (None, Some err)
      | inl resp =>
          out <- match NewBuffer (maxbuf c) with
                 | inr err => ioRet (None, Some err)
                 | inl b =>
                     '(b, err) <- copy b (RespBody resp) ;;
                     let err :=
                       match err with
                       | None =>
                           if (StatusCode resp =? okStatus)%Z then None
                           else Some (Errorf_ "bad status code: %s %d %s"
                                        [OString urlstr; OInt (StatusCode resp);
                                         OBuffer (Some (Bytes b))])
                       | Some _ => err
                       end in
                     ioRet (Some b, err)
                 end ;;
          close (RespBody resp) ;;
          ioRet out
      end
  end.

(** The error [DockerClient_call] returns once the body has been copied:
    [err] as it is after line 83. *)
Definition verdict (urlstr : string) (okStatus : Z) (resp : Response S)
  (b : B) (err : option Fault) : option Fault :=
  match err with
  | None =>
      if (StatusCode resp =? okStatus)%Z then None
      else Some (Errorf_ "bad status code: %s %d %s"
                   [OString urlstr; OInt (StatusCode resp);
                    OBuffer (Some (Bytes b))])
  | Some _ => err
  end.

(** The server has answered the request of a call with [resp], and the body
    has been copied without error into a new buffer, now [bf]. *)
Definition answered (c : DockerClient) (method uri : string)
  (v : option Payload) (w : W) (resp : Response S) (bf : B) : Prop :=
  exists req b0,
    request c method uri v = inl req
    /\ fst (Do (client c) req w) = inl resp
    /\ NewBuffer (maxbuf c) = inl b0
    /\ fst (Copy b0 (RespBody resp) (snd (Do (client c) req w))) = (bf, None).

Definition CreateExec (c : DockerClient) (containerID : string)
  (cmd : list string) : IO W (Go (string * option Fault)) :=
  let data := CreateExecData false true true false cmd in
  let uri := ("/containers/" ++ containerID ++ "/exec")%string in
  '(b, err) <- DockerClient_call c "POST" uri StatusCreated (Some data) ;;
  match err with
  | Some err => ioRet (Returns ("", Some (Errorf_ "create exec: %v" [OError err])))
  | None =>
      match b with
      | None => ioRet Panics
      | Some b =>
          let '(id, err) := DecodeId (Bytes b) in
          match err with
          | Some err =>
              ioRet (Returns
                       ("", Some (Errorf_ "error in create exec: %v" [OError err])))
          | None => ioRet (Returns (id, None))
          end
      end
  end.

Definition StartExec (c : DockerClient) (execID : string)
  : IO W (option B * option Fault) :=
  let data := StartExecData false true in
  let uri := ("/exec/" ++ execID ++ "/start")%string in
  '(b, err) <- DockerClient_call c "POST" uri StatusOK (Some data) ;;
  match err with
  | Some err =>
      ioRet (None,
             Some (Errorf_ "error in exec start: %v %s"
                     [OError err; OBuffer (option_map Bytes b)]))
  | None => ioRet (b, None)
  end.

Definition InspectExec (c : DockerClient) (execID : string)
  : IO W (Go (Z * option Fault)) :=
  let uri := ("/exec/" ++ execID ++ "/json")%string in
  '(b, err) <- DockerClient_call c "GET" uri StatusOK None ;;
  match err with
  | Some err =>
      ioRet (Returns
               (0, Some (Errorf_ "error in exec inspect: %v %s"
                           [OError err; OBuffer (option_map Bytes b)])))
  | None =>
      match b with
      | None => ioRet Panics
      | Some b' =>
          let '(code, err) := DecodeExitCode (Bytes b') in
          match err with
          | Some err =>
              ioRet (Returns
                       (0, Some (Errorf_ "error in exec inspect: %v %s"
                                   [OError err; OBuffer (Some (Bytes b'))])))
          | None => ioRet (Returns (code, None))
          end
      end
  end.
End Client.

(** ** A canned engine

    A stand-in for the libraries, to run the client on: every request is
    well-formed, the JSON encoding of a value is a fixed text, the world is
    the list of answers still to come from the server (none left: the
    connection is refused), a body is its text and the error its reading ends
    with, a buffer is its limit and its text and wants a positive limit. *)
Definition cannedEngine
  : Engine (list (Response (string * option Fault) + Fault))
      (string * option Fault) (Z * string) := {|
  NewRequest := fun _ _ => None;
  Encode := fun _ => ("{}", None);
  Do := fun _ _ w =>
    match w with
    | [] => (inr (Foreign "connection refused"), [])
    | answer :: rest => (answer, rest)
    end;
  NewBuffer := fun size =>
    if (size <=? 0)%Z then inr (Foreign "Size must be positive")
    else inl (size, "");
  Copy := fun b body w => (((fst b, (snd b ++ fst body)%string), snd body), w);
  Close := fun _ w => w;
  Bytes := fun b => snd b;
  DecodeId := fun s => (s, None);
  DecodeExitCode := fun s => (Z.of_nat (String.length s), None)
|}.

(** The error for a status that is not the expected one. *)
Definition badStatus (urlstr : string) (status : Z) (content : string) : Fault :=
  Errorf_ "bad status code: %s %d %s"
    [OString urlstr; OInt status; OBuffer (Some content)].

(** A request with the given method and URL that carries [body] as JSON,
    or nothing. *)
Definition carries (method urlstr : string) (body : option string)
  (req : Request) : Prop :=
  Method req = method /\ URL req = urlstr /\ Body req = body
  /\ ContentType req = match body with
                       | Some _ => Some "application/json"
                       | None => None
                       end.

(** ** A collaborator that keeps what it is asked

    Its world holds the answers discovery will give and, in order, every
    list a join was called with; every join is refused. *)
Record Tape : Type := mkTape {
  found : list (list string * Error);
  asked : list (list string)
}.

Definition taping : Cluster Tape := {|
  discoverAddrs := fun _ w =>
    match found w with
    | [] => (([], None), w)
    | r :: rest => (r, mkTape rest (asked w))
    end;
  JoinLAN := fun servers w => (refused, mkTape (found w) (asked w ++ [servers]));
  JoinWAN := fun servers w => (refused, mkTape (found w) (asked w ++ [servers]))
|}.

(** A tape on which discovery answers once, with an address and an error. *)
Definition partialTape : Tape :=
  mkTape [(["10.9.9.9"], Some "partial result")] [].

(** The events of a LAN round that called the join and was retried: those
    of discovery, the join call on what was discovered followed by the static
    addresses, the warning, the sleep. *)
Definition lanRetriedRound (cfg : Config) (evs : list Event) : Prop :=
  exists devs servers err,
    Forall (fun e => isDiscovery e = true) devs
    /\ servers ++ lanAddrs cfg <> []
    /\ evs = devs
             ++ [CallJoinLAN (servers ++ lanAddrs cfg);
                 Printf lanWarning [VError err; VDuration (RetryInterval cfg)];
                 Sleep (RetryInterval cfg)].

(** The events of the LAN round that called the join and gave up. *)
Definition lanExhaustedRound (cfg : Config) (evs : list Event) : Prop :=
  exists devs servers,
    Forall (fun e => isDiscovery e = true) devs
    /\ servers ++ lanAddrs cfg <> []
    /\ evs = devs
             ++ [CallJoinLAN (servers ++ lanAddrs cfg);
                 ChanSend (Errorf lanExhausted)].

(** The same for the WAN loop; the warning shows the error of the join. *)
Definition wanRetriedRound (cfg : Config) (evs : list Event) : Prop :=
  exists e,
    evs = [CallJoinWAN (RetryJoinWan cfg);
           Printf wanWarning [VError (Some e); VDuration (RetryIntervalWan cfg)];
           Sleep (RetryIntervalWan cfg)].

Definition wanExhaustedRound (cfg : Config) (evs : list Event) : Prop :=
  evs = [CallJoinWAN (RetryJoinWan cfg); ChanSend (Errorf wanExhausted)].

(** * Properties *)

(** ** Strings *)

Lemma HasPrefix_app (p rest : string) : HasPrefix (p ++ rest)%string p = true.
Proof.
  induction p as [|c p IH]; simpl; [reflexivity|].
  now rewrite Ascii.eqb_refl, IH.
Qed.

Lemma HasPrefix_inv (s p : string) :
  HasPrefix s p = true -> exists rest, s = (p ++ rest)%string.
Proof.
  revert s; induction p as [|c p IH]; intros s Hs; simpl in *.
  - now exists s.
  - destruct s as [|d s]; [discriminate|].
    apply andb_true_iff in Hs as [Hc Hp].
    apply Ascii.eqb_eq in Hc; subst d.
    destruct (IH _ Hp) as [rest ->]. now exists rest.
Qed.

Lemma Contains_eq (s substr : string) :
  Contains s substr =
  HasPrefix s substr
  || match s with
     | EmptyString => false
     | String _ s' => Contains s' substr
     end.
Proof. destruct s; reflexivity. Qed.

(** [Contains] finds exactly the strings that have [substr] as a factor. *)
Lemma Contains_spec (s substr : string) :
  Contains s substr = true <->
  exists before after, s = (before ++ substr ++ after)%string.
Proof.
  split.
  - induction s as [|c s IH]; simpl; intros H.
    + rewrite orb_false_r in H. apply HasPrefix_inv in H as [rest E].
      now exists "", rest.
    + apply orb_true_iff in H as [H|H].
      * apply HasPrefix_inv in H as [rest E]. now exists "", rest.
      * destruct (IH H) as (b & a & ->). now exists (String c b), a.
  - intros (b & a & ->). induction b as [|c b IH]; simpl.
    + rewrite Contains_eq, HasPrefix_app. reflexivity.
    + now rewrite IH, orb_true_r.
Qed.

Lemma Contains_marker_nonempty (addr : string) :
  Contains addr marker = true -> addr <> "".
Proof. intros H ->. discriminate H. Qed.

(** ** Go integers *)

Lemma incr_no_overflow (attempt : Z) :
  MinInt <= attempt < MaxInt -> incr attempt = attempt + 1.
Proof.
  unfold incr, wrapInt, MinInt, MaxInt, intBits. intros H.
  rewrite Z.mod_small; lia.
Qed.

Lemma incr_overflow : incr MaxInt = MinInt.
Proof. reflexivity. Qed.

Lemma incr_range (attempt : Z) : MinInt <= incr attempt <= MaxInt.
Proof.
  unfold incr, wrapInt, MinInt, MaxInt, intBits.
  pose proof (Z.mod_pos_bound (attempt + 1 + 2 ^ (64 - 1)) (2 ^ 64) eq_refl).
  lia.
Qed.

(** ** The split of the configured list *)

Lemma lastOption_cons {A} (x : A) (l : list A) :
  exists y, lastOption (x :: l) = Some y.
Proof.
  revert x. induction l as [|z l IH]; intros x.
  - now exists x.
  - destruct (IH z) as [y Hy]. exists y. exact Hy.
Qed.

Lemma splitFrom_filter (l addrs : list string) (disco : string) :
  splitFrom l addrs disco =
  (addrs ++ filter (fun entry => negb (Contains entry marker)) l,
   match lastOption (filter (fun entry => Contains entry marker) l) with
   | Some d => d
   | None => disco
   end).
Proof.
  revert addrs disco. induction l as [|addr l IH]; intros addrs disco; simpl.
  - now rewrite app_nil_r.
  - destruct (Contains addr marker) eqn:E; simpl; rewrite IH.
    + destruct (filter (fun entry => Contains entry marker) l) as [|d ds];
        [reflexivity|].
      destruct (lastOption_cons d ds) as [x ->]. reflexivity.
    + now rewrite <- app_assoc.
Qed.

Lemma lastOption_In {A} (l : list A) (x : A) : lastOption l = Some x -> In x l.
Proof.
  induction l as [|y l IH]; simpl; [discriminate|].
  destruct l as [|z l]; [intros [= ->]; now left|].
  intros H. right. now apply IH.
Qed.

(** C3: the split keeps the entries without the marker, in order, as the
    static addresses, leaves out every entry with the marker, and keeps of
    those only the last one as directive (the empty string, read as no
    directive, when there is none); on the list of the example it gives the
    two literal addresses and the mock directive. *)
Theorem splitRetryJoin_resolves (joinSpec : list string) :
  fst (splitRetryJoin joinSpec)
  = filter (fun entry => negb (Contains entry marker)) joinSpec
  /\ directive (snd (splitRetryJoin joinSpec))
     = lastOption (filter (fun entry => Contains entry marker) joinSpec)
  /\ (fst (splitRetryJoin joinSpec), directive (snd (splitRetryJoin joinSpec)))
     = AddressResolver joinSpec
  /\ splitRetryJoin ["10.0.0.1"; "provider=mock key=value"; "10.0.0.2"]
     = (["10.0.0.1"; "10.0.0.2"], "provider=mock key=value").
Proof.
  assert (D : directive (snd (splitRetryJoin joinSpec))
              = lastOption (filter (fun entry => Contains entry marker) joinSpec)).
  { unfold splitRetryJoin. rewrite splitFrom_filter. simpl.
    destruct (lastOption _) as [d|] eqn:E; [|reflexivity].
    apply lastOption_In, filter_In in E as [_ E].
    apply Contains_marker_nonempty in E.
    unfold directive. destruct (String.eqb_spec d ""); congruence. }
  assert (S : fst (splitRetryJoin joinSpec)
              = filter (fun entry => negb (Contains entry marker)) joinSpec).
  { unfold splitRetryJoin. now rewrite splitFrom_filter. }
  repeat split; try assumption.
  unfold AddressResolver. now rewrite S, D.
Qed.

(** ** Counting events *)

Lemma count_app (p : Event -> bool) (l1 l2 : list Event) :
  count p (l1 ++ l2) = (count p l1 + count p l2)%nat.
Proof. unfold count. now rewrite filter_app, length_app. Qed.

Lemma count_cons (p : Event -> bool) (e : Event) (l : list Event) :
  count p (e :: l) = ((if p e then 1 else 0) + count p l)%nat.
Proof. unfold count; simpl. destruct (p e); reflexivity. Qed.

Lemma count_nil (p : Event -> bool) : count p [] = 0%nat.
Proof. reflexivity. Qed.

Lemma count_none (p : Event -> bool) (l : list Event) :
  Forall (fun e => p e = false) l -> count p l = 0%nat.
Proof.
  induction 1 as [|e l He _ IH]; [reflexivity|].
  now rewrite count_cons, He, IH.
Qed.

Lemma count_zero_Forall (p : Event -> bool) (l : list Event) :
  count p l = 0%nat -> Forall (fun e => p e = false) l.
Proof.
  induction l as [|e l IH]; [constructor|].
  rewrite count_cons. destruct (p e) eqn:E; [discriminate|].
  intros H. constructor; [exact E | now apply IH].
Qed.

Lemma Calm_quiet (evs : list Event) :
  Forall (fun e => quiet e = true) evs -> Calm 0 evs.
Proof.
  intros H.
  split; apply count_none; eapply Forall_impl; try exact H;
    intros e He; unfold quiet in He; apply negb_true_iff in He;
    repeat (apply orb_false_iff in He as [He ?]); assumption.
Qed.

Lemma Calm_app (j k : nat) (l1 l2 : list Event) :
  Calm j l1 -> Calm k l2 -> Calm (j + k) (l1 ++ l2).
Proof.
  intros [] []. split; rewrite count_app; lia.
Qed.

Lemma Calm_retry (fmt : string) (err : Error) (interval : Z) :
  isWarn (Printf fmt [VError err; VDuration interval]) = true ->
  isJoinCompleted (Printf fmt [VError err; VDuration interval]) = false ->
  Calm 1 [Printf fmt [VError err; VDuration interval]; Sleep interval].
Proof.
  intros Hw Hc. split; rewrite !count_cons, ?Hw, ?Hc; reflexivity.
Qed.

(** ** The shape of one round *)

(** The ending of a failed round, on its own. *)
Lemma failed_cases {W} (maxAttempts interval : Z) (exhausted warning : string)
  (err : Error) (attempt : Z) (w : W) :
  (maxAttempts > 0 /\ incr attempt > maxAttempts
   /\ failed maxAttempts interval exhausted warning err attempt w
      = ((Return, w), [ChanSend (Errorf exhausted)]))
  \/ (~ (maxAttempts > 0 /\ incr attempt > maxAttempts)
      /\ failed maxAttempts interval exhausted warning err attempt w
         = ((Continue (incr attempt), w),
            [Printf warning [VError err; VDuration interval]; Sleep interval])).
Proof.
  unfold failed.
  destruct (maxAttempts >? 0) eqn:E1; destruct (incr attempt >? maxAttempts) eqn:E2;
    simpl; [left | right | right | right];
    repeat split; try reflexivity; try lia.
Qed.

(** ** One round of retryJoin *)

Lemma events_pair {W A} (x : A * W) (evs : list Event) : events (x, evs) = evs.
Proof. reflexivity. Qed.

Lemma events_after {W A} (evs : list Event) (r : (A * W) * list Event) :
  events (after evs r) = evs ++ events r.
Proof. reflexivity. Qed.

Lemma value_after {W A} (evs : list Event) (r : (A * W) * list Event) :
  value (after evs r) = value r.
Proof. reflexivity. Qed.

Lemma world_after {W A} (evs : list Event) (r : (A * W) * list Event) :
  world (after evs r) = world r.
Proof. reflexivity. Qed.

Lemma discovered_resolution {W} {C : Cluster W} (disco : string) (w : W) :
  fst (discovered disco w) = resolution disco w
  /\ Forall (fun e => isDiscovery e = true) (events (discovered disco w))
  /\ (disco = "" -> events (discovered disco w) = []).
Proof.
  unfold discovered, resolution, events.
  destruct (String.eqb_spec disco "") as [->|Hd]; simpl.
  - repeat split. constructor.
  - unfold bind, call, emit, ret.
    destruct (discoverAddrs disco w) as [[servers [e|]] w1]; simpl;
      repeat split; try congruence; repeat constructor.
Qed.

Lemma isDiscovery_quiet (evs : list Event) :
  Forall (fun e => isDiscovery e = true) evs ->
  Forall (fun e => quiet e = true) evs
  /\ Forall (fun e => isJoin e = false) evs.
Proof.
  induction 1 as [|e l He _ [IH1 IH2]]; [split; constructor|].
  assert (quiet e = true /\ isJoin e = false) as [Hq Hj].
  { destruct e as [fmt args| | | | |]; try discriminate He; try (split; reflexivity).
    unfold isDiscovery, isDiscover, isLevel in He. rewrite orb_false_l in He.
    apply HasPrefix_inv in He as [rest ->]. split; reflexivity. }
  split; constructor; assumption.
Qed.

(** The round of [retryJoin], case by case on what the outside answers. *)
Lemma retryJoinIter_cases {W} {C : Cluster W} (cfg : Config)
  (addrs : list string) (disco : string) (attempt : Z) (w : W) :
  let servers := fst (fst (resolution disco w)) in
  let err := snd (fst (resolution disco w)) in
  let w1 := snd (resolution disco w) in
  let devs := events (discovered disco w) in
  let fail := failed (RetryMaxAttempts cfg) (RetryInterval cfg)
                lanExhausted lanWarning in
  retryJoinIter cfg addrs disco attempt w =
  match servers ++ addrs with
  | [] => after devs (fail (Errorf "No servers to join") attempt w1)
  | _ :: _ =>
      let n := fst (fst (JoinLAN (servers ++ addrs) w1)) in
      let w2 := snd (JoinLAN (servers ++ addrs) w1) in
      match snd (fst (JoinLAN (servers ++ addrs) w1)) with
      | None =>
          ((Return, w2),
           devs ++ [CallJoinLAN (servers ++ addrs); Printf lanCompleted [VInt n]])
      | Some _ =>
          after (devs ++ [CallJoinLAN (servers ++ addrs)]) (fail err attempt w2)
      end
  end.
Proof.
  intros servers err w1 devs fail.
  destruct (discovered_resolution disco w) as (R & _ & _).
  subst servers err w1 devs fail. rewrite <- R.
  unfold retryJoinIter, bind at 1, events.
  destruct (discovered disco w) as [[[servers err] w1] devs]; simpl.
  destruct (servers ++ addrs) as [|s l] eqn:E.
  - unfold after. destruct (failed _ _ _ _ _ attempt w1) as [[c w2] evs].
    reflexivity.
  - unfold bind, call, emit, ret.
    destruct (JoinLAN (s :: l) w1) as [[n [e|]] w2]; simpl.
    + unfold after. destruct (failed _ _ _ _ err attempt w2) as [[c w3] evs]; simpl.
      now rewrite <- app_assoc.
    + reflexivity.
Qed.

(** The round of [retryJoinWan], likewise. *)
Lemma retryJoinWanIter_cases {W} {C : Cluster W} (cfg : Config)
  (attempt : Z) (w : W) :
  let servers := RetryJoinWan cfg in
  let n := fst (fst (JoinWAN servers w)) in
  let err := snd (fst (JoinWAN servers w)) in
  let w1 := snd (JoinWAN servers w) in
  retryJoinWanIter cfg attempt w =
  match err with
  | None => ((Return, w1), [CallJoinWAN servers; Printf wanCompleted [VInt n]])
  | Some _ =>
      after [CallJoinWAN servers]
        (failed (RetryMaxAttemptsWan cfg) (RetryIntervalWan cfg)
           wanExhausted wanWarning err attempt w1)
  end.
Proof.
  intros servers n err w1. subst servers n err w1.
  unfold retryJoinWanIter, bind, call, emit, ret.
  destruct (JoinWAN (RetryJoinWan cfg) w) as [[n [e|]] w1]; simpl.
  - unfold after.
    destruct (failed _ _ _ _ _ attempt w1) as [[c w2] evs]. reflexivity.
  - reflexivity.
Qed.

(** A bound of [MaxInt] is one the counter cannot pass: the round goes on. *)
Lemma failed_at_MaxInt {W} (interval : Z) (exhausted warning : string)
  (err : Error) (attempt : Z) (w : W) :
  failed MaxInt interval exhausted warning err attempt w
  = ((Continue (incr attempt), w),
     [Printf warning [VError err; VDuration interval]; Sleep interval]).
Proof.
  destruct (failed_cases MaxInt interval exhausted warning err attempt w)
    as [(_ & H & _) | (_ & H)]; [|exact H].
  pose proof (incr_range attempt). lia.
Qed.

Lemma failed_shape {W} (maxAttempts interval : Z) (exhausted warning : string)
  (err : Error) (attempt : Z) (w : W) (pre : list Event) :
  Forall (fun e => quiet e = true) pre ->
  isWarn (Printf warning [VError err; VDuration interval]) = true ->
  isJoinCompleted (Printf warning [VError err; VDuration interval]) = false ->
  IterShape maxAttempts interval exhausted attempt
    (after pre (failed maxAttempts interval exhausted warning err attempt w)).
Proof.
  intros Hpre Hw Hc.
  destruct (failed_cases maxAttempts interval exhausted warning err attempt w)
    as [(H1 & H2 & ->) | (H1 & ->)]; unfold after; simpl.
  - now apply iter_exhausted.
  - now apply iter_retrying.
Qed.

Lemma retryJoinIter_shape {W} {C : Cluster W} (cfg : Config)
  (addrs : list string) (disco : string) (attempt : Z) (w : W) :
  IterShape (RetryMaxAttempts cfg) (RetryInterval cfg) lanExhausted attempt
    (retryJoinIter cfg addrs disco attempt w).
Proof.
  rewrite retryJoinIter_cases. cbv zeta.
  destruct (discovered_resolution disco w) as (_ & D & _).
  apply isDiscovery_quiet in D as [Q _].
  assert (Q' : forall l, Forall (fun e => quiet e = true)
                           (events (discovered disco w) ++ [CallJoinLAN l])).
  { intros l. apply Forall_app. split; [exact Q | repeat constructor]. }
  destruct (_ ++ addrs) as [|s l].
  - now apply failed_shape.
  - destruct (snd (fst (JoinLAN _ _))).
    + now apply failed_shape.
    + match goal with
      | |- IterShape _ _ _ _ (_, ?d ++ [?a; ?b]) =>
          change (d ++ [a; b]) with (d ++ ([a] ++ [b]));
          rewrite (app_assoc d [a] [b])
      end.
      now apply iter_succeeded.
Qed.

Lemma retryJoinWanIter_shape {W} {C : Cluster W} (cfg : Config)
  (attempt : Z) (w : W) :
  IterShape (RetryMaxAttemptsWan cfg) (RetryIntervalWan cfg) wanExhausted attempt
    (retryJoinWanIter cfg attempt w).
Proof.
  rewrite retryJoinWanIter_cases. cbv zeta.
  destruct (snd (fst (JoinWAN _ _))).
  - apply failed_shape; [repeat constructor | reflexivity | reflexivity].
  - apply (iter_succeeded _ _ _ _ [CallJoinWAN (RetryJoinWan cfg)]);
      [repeat constructor | reflexivity].
Qed.

(** ** The loop *)

Lemma RunShape_after (maxAttempts : Z) (msg : string) (j k : nat)
  (v : option unit) (pre evs : list Event) :
  Calm j pre -> RunShape maxAttempts msg k v evs ->
  RunShape maxAttempts msg (j + k) v (pre ++ evs).
Proof.
  intros Hpre [k' evs' H | k' pre' fmt n H Hc | k' pre' H Hm].
  - constructor. now apply Calm_app.
  - rewrite app_assoc, Nat.add_succ_r. constructor; [now apply Calm_app | exact Hc].
  - rewrite app_assoc, Nat.add_succ_r. constructor; [now apply Calm_app | exact Hm].
Qed.

Section Loop.
Context {W : Type}.
Variable body : Z -> M W Ctl.

Lemma forever_S (fuel : nat) (attempt : Z) (w : W) :
  forever body (S fuel) attempt w =
  match fst (fst (body attempt w)) with
  | Return => ((Some tt, snd (fst (body attempt w))), snd (body attempt w))
  | Continue attempt' =>
      after (snd (body attempt w))
        (forever body fuel attempt' (snd (fst (body attempt w))))
  end.
Proof.
  simpl. unfold bind at 1.
  destruct (body attempt w) as [[[|attempt'] w1] e1]; simpl.
  - now rewrite app_nil_r.
  - unfold after. destruct (forever body fuel attempt' w1) as [[v w2] e2].
    reflexivity.
Qed.

Lemma rounds_S (fuel : nat) (attempt : Z) (w : W) :
  rounds body (S fuel) attempt w =
  match fst (fst (body attempt w)) with
  | Return => 1%nat
  | Continue attempt' =>
      S (rounds body fuel attempt' (snd (fst (body attempt w))))
  end.
Proof. simpl. destruct (body attempt w) as [[[|] ?] ?]; reflexivity. Qed.



(** A run is still going exactly when it has used all its fuel on rounds
    that asked for another one. *)
Lemma forever_going (fuel : nat) (attempt : Z) (w : W) :
  value (forever body fuel attempt w) = None ->
  rounds body fuel attempt w = fuel.
Proof.
  revert attempt w. induction fuel as [|fuel IH]; intros attempt w; [reflexivity|].
  rewrite forever_S, rounds_S.
  destruct (fst (fst (body attempt w))) as [|attempt']; [discriminate|].
  unfold after, value. simpl. intros H. now rewrite IH.
Qed.

(** Events that every round produces the same number of. *)
Lemma forever_count_rounds (p : Event -> bool) (c : nat) :
  (forall attempt w, count p (events (body attempt w)) = c) ->
  forall fuel attempt w,
    count p (events (forever body fuel attempt w))
    = (c * rounds body fuel attempt w)%nat.
Proof.
  intros Hc. induction fuel as [|fuel IH]; intros attempt w.
  - simpl. unfold events, ret, count. simpl. lia.
  - rewrite forever_S, rounds_S. specialize (Hc attempt w). unfold events in *.
    destruct (fst (fst (body attempt w))) as [|attempt']; simpl.
    + lia.
    + rewrite count_app, IH, Hc. lia.
Qed.

(** A property of the events of every round holds of the events of a run. *)
Lemma forever_Forall (P : Event -> Prop) :
  (forall attempt w, Forall P (events (body attempt w))) ->
  forall fuel attempt w, Forall P (events (forever body fuel attempt w)).
Proof.
  intros HP. induction fuel as [|fuel IH]; intros attempt w.
  - constructor.
  - rewrite forever_S. specialize (HP attempt w). unfold events in *.
    destruct (fst (fst (body attempt w))) as [|attempt']; simpl; [exact HP|].
    apply Forall_app. split; [exact HP | apply IH].
Qed.
End Loop.

Section ShapedLoop.
Context {W : Type}.
Variable body : Z -> M W Ctl.
Variables maxAttempts interval : Z.
Variable msg : string.
Hypothesis body_shape :
  forall attempt w, IterShape maxAttempts interval msg attempt (body attempt w).

Lemma forever_shape (fuel : nat) (attempt : Z) (w : W) :
  RunShape maxAttempts msg (rounds body fuel attempt w)
    (value (forever body fuel attempt w))
    (events (forever body fuel attempt w)).
Proof.
  revert attempt w. induction fuel as [|fuel IH]; intros attempt w.
  - apply run_going. split; reflexivity.
  - rewrite forever_S, rounds_S.
    pose proof (body_shape attempt w) as H.
    inversion H as [pre fmt n w' Hq Hc E | pre w' Hq Hm Hi E
                   | pre fmt err w' Hq Hw Hc Hn E]; simpl.
    + apply run_succeeded; [now apply Calm_quiet | exact Hc].
    + apply run_exhausted; [now apply Calm_quiet | exact Hm].
    + apply (RunShape_after maxAttempts msg 1); [|apply IH].
      apply (Calm_app 0 1); [now apply Calm_quiet | now apply Calm_retry].
Qed.

(** With a bound that the counter can pass and rounds that never succeed,
    the run takes one round more than the bound and then has returned. *)
Lemma forever_exhausts (fuel : nat) (attempt : Z) (w : W) :
  (forall a w', count isJoinCompleted (events (body a w')) = 0%nat) ->
  0 < maxAttempts < MaxInt ->
  0 <= attempt <= maxAttempts ->
  rounds body fuel attempt w
  = Nat.min fuel (S (Z.to_nat (maxAttempts - attempt)))
  /\ value (forever body fuel attempt w)
     = if (Z.to_nat (maxAttempts - attempt) <? fuel)%nat then Some tt else None.
Proof.
  intros Hfail Hmax. revert attempt w.
  induction fuel as [|fuel IH]; intros attempt w Ha.
  - split; reflexivity.
  - rewrite forever_S, rounds_S.
    pose proof (body_shape attempt w) as H. specialize (Hfail attempt w).
    assert (Hincr : incr attempt = attempt + 1).
    { apply incr_no_overflow. unfold MinInt, MaxInt, intBits in *. lia. }
    inversion H as [pre fmt n w' Hq Hc E | pre w' Hq Hm Hi E
                   | pre fmt err w' Hq Hw Hc Hn E];
      rewrite <- E in Hfail; unfold events in Hfail; simpl in Hfail |- *.
    + rewrite count_app, count_cons, Hc in Hfail. lia.
    + replace (maxAttempts - attempt) with 0 by lia.
      split; [simpl; lia | reflexivity].
    + destruct (IH (incr attempt) w') as [IH1 IH2]; [lia|].
      unfold after, value in *. simpl. rewrite IH1, IH2, Hincr.
      replace (Z.to_nat (maxAttempts - attempt))
        with (S (Z.to_nat (maxAttempts - (attempt + 1)))) by lia.
      split; reflexivity.
Qed.
End ShapedLoop.

(** ** The two controllers as wholes *)

Lemma retryJoin_started {W} {C : Cluster W} (cfg : Config) (fuel : nat) (w : W) :
  RetryJoin cfg <> [] ->
  retryJoin cfg fuel w
  = after [lanStart]
      (forever (retryJoinIter cfg (lanAddrs cfg) (lanDisco cfg)) fuel 0 w).
Proof.
  unfold retryJoin, lanAddrs, lanDisco. intros Hne.
  destruct (RetryJoin cfg) as [|a l]; [congruence|].
  destruct (splitRetryJoin (a :: l)) as [addrs disco]; simpl.
  unfold bind at 1, emit, after.
  destruct (forever _ fuel 0 w) as [[v w'] evs]. reflexivity.
Qed.

Lemma retryJoinWan_started {W} {C : Cluster W} (cfg : Config) (fuel : nat) (w : W) :
  RetryJoinWan cfg <> [] ->
  retryJoinWan cfg fuel w
  = after [wanStart] (forever (retryJoinWanIter cfg) fuel 0 w).
Proof.
  unfold retryJoinWan. intros Hne.
  destruct (RetryJoinWan cfg) as [|a l]; [congruence|].
  unfold bind at 1, emit, after.
  destruct (forever _ fuel 0 w) as [[v w'] evs]. reflexivity.
Qed.

Lemma retryJoin_idle {W} {C : Cluster W} (cfg : Config) (fuel : nat) (w : W) :
  RetryJoin cfg = [] -> retryJoin cfg fuel w = ((Some tt, w), []).
Proof. unfold retryJoin. now intros ->. Qed.

Lemma retryJoinWan_idle {W} {C : Cluster W} (cfg : Config) (fuel : nat) (w : W) :
  RetryJoinWan cfg = [] -> retryJoinWan cfg fuel w = ((Some tt, w), []).
Proof. unfold retryJoinWan. now intros ->. Qed.

Lemma Calm_start (e : Event) : quiet e = true -> Calm 0 [e].
Proof. intros H. apply Calm_quiet. now constructor. Qed.

Lemma retryJoin_shape {W} {C : Cluster W} (cfg : Config) (fuel : nat) (w : W) :
  RetryJoin cfg <> [] ->
  RunShape (RetryMaxAttempts cfg) lanExhausted (lanRounds cfg fuel w)
    (value (retryJoin cfg fuel w)) (events (retryJoin cfg fuel w)).
Proof.
  intros Hne. rewrite retryJoin_started by exact Hne.
  apply (RunShape_after _ _ 0); [now apply Calm_start|].
  apply (forever_shape _ _ (RetryInterval cfg)).
  intros a w'. apply retryJoinIter_shape.
Qed.

Lemma retryJoinWan_shape {W} {C : Cluster W} (cfg : Config) (fuel : nat) (w : W) :
  RetryJoinWan cfg <> [] ->
  RunShape (RetryMaxAttemptsWan cfg) wanExhausted (wanRounds cfg fuel w)
    (value (retryJoinWan cfg fuel w)) (events (retryJoinWan cfg fuel w)).
Proof.
  intros Hne. rewrite retryJoinWan_started by exact Hne.
  apply (RunShape_after _ _ 0); [now apply Calm_start|].
  apply (forever_shape _ _ (RetryIntervalWan cfg)).
  intros a w'. apply retryJoinWanIter_shape.
Qed.

(** ** Failed rounds *)

Lemma failed_round {W} (maxAttempts interval : Z) (exhausted warning : string)
  (err : Error) (attempt : Z) (w : W) (pre : list Event) :
  Forall (fun e => quiet e = true) pre ->
  FailedRound maxAttempts interval exhausted warning err attempt
    (after pre (failed maxAttempts interval exhausted warning err attempt w)).
Proof.
  intros Hpre. pose proof (Calm_quiet pre Hpre) as Hc.
  pose proof (calm_sends _ _ Hc) as Hs.
  destruct (failed_cases maxAttempts interval exhausted warning err attempt w)
    as [(H1 & H2 & ->) | (H1 & ->)];
    unfold FailedRound, after, value, events; simpl; rewrite count_app, Hs.
  - repeat split; auto; try tauto. now exists pre.
  - repeat split; auto; try tauto; try discriminate. now exists pre.
Qed.

Lemma discovery_counts (devs : list Event) :
  Forall (fun e => isDiscovery e = true) devs ->
  Calm 0 devs
  /\ count isJoin devs = 0%nat
  /\ count isJoinLAN devs = 0%nat
  /\ forall l, ~ In (CallJoinLAN l) devs.
Proof.
  intros D. destruct (isDiscovery_quiet devs D) as [Q J].
  split; [|split; [|split]].
  - now apply Calm_quiet.
  - now apply count_none.
  - apply count_none. eapply Forall_impl; [|exact J].
    intros e He. unfold isJoin in He. now apply orb_false_iff in He as [He _].
  - intros l Hin. rewrite Forall_forall in J. now specialize (J _ Hin).
Qed.

(** ** The claims *)

(** C9: with an empty [RetryJoin] (LAN) or [RetryJoinWan] (WAN) the
    controller returns at once, whatever the fuel: no event at all (no log
    line, no join call, no send, no sleep), the world untouched, no round. *)
Theorem empty_join_spec_does_nothing {W} {C : Cluster W} (cfg : Config)
  (fuel : nat) (w : W) :
  (RetryJoin cfg = [] -> retryJoin cfg fuel w = ((Some tt, w), []))
  /\ (RetryJoinWan cfg = [] -> retryJoinWan cfg fuel w = ((Some tt, w), [])).
Proof.
  split; intros H; [now apply retryJoin_idle | now apply retryJoinWan_idle].
Qed.

Lemma empty_join_spec_does_nothing_witness :
  retryJoin (C := scripted) (lanConfig [] 3) 0 silent = ((Some tt, silent), [])
  /\ retryJoinWan (C := scripted) (wanConfig [] 3) 0 silent
     = ((Some tt, silent), []).
Proof.
  split.
  - apply (proj1 (empty_join_spec_does_nothing (lanConfig [] 3) 0 silent)).
    reflexivity.
  - apply (proj2 (empty_join_spec_does_nothing (wanConfig [] 3) 0 silent)).
    reflexivity.
Defined.

Lemma retryJoinWanIter_events {W} {C : Cluster W} (cfg : Config)
  (attempt : Z) (w : W) :
  exists rest,
    events (retryJoinWanIter cfg attempt w)
    = CallJoinWAN (RetryJoinWan cfg) :: rest
    /\ Forall (fun e => isJoin e = false /\ isDiscover e = false) rest.
Proof.
  rewrite retryJoinWanIter_cases. cbv zeta.
  destruct (snd (fst (JoinWAN _ _))).
  - destruct (failed_cases (RetryMaxAttemptsWan cfg) (RetryIntervalWan cfg)
                wanExhausted wanWarning (Some s) attempt
                (snd (JoinWAN (RetryJoinWan cfg) w)))
      as [(_ & _ & ->) | (_ & ->)];
      eexists; (split; [reflexivity | repeat constructor]).
  - eexists. split; [reflexivity | repeat constructor].
Qed.

Lemma taping_wan_run (cfg : Config) :
  forall (fuel : nat) (attempt : Z) (ds : list (list string * Error))
         (hs : list (list string)),
    asked (world (forever (retryJoinWanIter (C := taping) cfg) fuel attempt
                    (mkTape ds hs)))
    = hs ++ repeat (RetryJoinWan cfg)
              (rounds (retryJoinWanIter (C := taping) cfg) fuel attempt
                 (mkTape ds hs)).
Proof.
  induction fuel as [|fuel IH]; intros attempt ds hs.
  - simpl. now rewrite app_nil_r.
  - rewrite forever_S, rounds_S, retryJoinWanIter_cases. cbv zeta.
    change (snd (fst (JoinWAN (RetryJoinWan cfg) (mkTape ds hs))))
      with (Some "connection refused").
    change (snd (JoinWAN (RetryJoinWan cfg) (mkTape ds hs)))
      with (mkTape ds (hs ++ [RetryJoinWan cfg])).
    cbv iota.
    destruct (failed_cases (RetryMaxAttemptsWan cfg) (RetryIntervalWan cfg)
                wanExhausted wanWarning (Some "connection refused") attempt
                (mkTape ds (hs ++ [RetryJoinWan cfg])))
      as [(_ & _ & ->) | (_ & ->)]; unfold after; cbn [fst snd].
    + reflexivity.
    + unfold world in *. cbn [fst snd]. rewrite IH, <- app_assoc. reflexivity.
Qed.

(** C10: the WAN controller neither splits its list nor resolves anything.
    Every round opens with one call of [JoinWAN] on [RetryJoinWan] as
    configured and makes no other call; over a whole run every join call
    carries that same list, no discovery call occurs, and there is one join
    call per round.  An entry with the marker goes to [JoinWAN] like any
    other address.  The call is the application of [JoinWAN] to that list:
    what the round returns, the world it leaves and the count or error it
    logs are those of [JoinWAN (RetryJoinWan cfg)], and a collaborator that
    keeps the lists it is asked to join has kept, after a run, the
    configured list once per round and nothing else. *)
Theorem wan_passes_list_verbatim {W} {C : Cluster W} (cfg : Config)
  (fuel : nat) (attempt : Z) (w : W) :
  (exists rest,
     events (retryJoinWanIter cfg attempt w)
     = CallJoinWAN (RetryJoinWan cfg) :: rest
     /\ Forall (fun e => isJoin e = false /\ isDiscover e = false) rest)
  /\ Forall (wanVerbatim cfg) (events (retryJoinWan cfg fuel w))
  /\ count isJoinWAN (events (retryJoinWan cfg fuel w))
     = match RetryJoinWan cfg with
       | [] => 0%nat
       | _ :: _ => wanRounds cfg fuel w
       end
  /\ events (retryJoinWan (C := scripted)
               (wanConfig ["10.0.0.1"; "provider=aws region=eu-west-1"] 0)
               1 silent)
     = [wanStart;
        CallJoinWAN ["10.0.0.1"; "provider=aws region=eu-west-1"];
        Printf wanWarning
          [VError (Some "connection refused"); VDuration 30000000000];
        Sleep 30000000000]
  /\ retryJoinWanIter cfg attempt w
     = match snd (fst (JoinWAN (RetryJoinWan cfg) w)) with
       | None =>
           ((Return, snd (JoinWAN (RetryJoinWan cfg) w)),
            [CallJoinWAN (RetryJoinWan cfg);
             Printf wanCompleted
               [VInt (fst (fst (JoinWAN (RetryJoinWan cfg) w)))]])
       | Some e =>
           after [CallJoinWAN (RetryJoinWan cfg)]
             (failed (RetryMaxAttemptsWan cfg) (RetryIntervalWan cfg)
                wanExhausted wanWarning (Some e) attempt
                (snd (JoinWAN (RetryJoinWan cfg) w)))
       end
  /\ (forall ds,
        asked (world (retryJoinWan (C := taping) cfg fuel (mkTape ds [])))
        = repeat (RetryJoinWan cfg)
            match RetryJoinWan cfg with
            | [] => 0%nat
            | _ :: _ => wanRounds (C := taping) cfg fuel (mkTape ds [])
            end)
  /\ world (retryJoinWan (C := taping)
              (wanConfig ["10.0.0.1"; "provider=aws region=eu-west-1"] 1)
              5 (mkTape [] []))
     = mkTape []
         [["10.0.0.1"; "provider=aws region=eu-west-1"];
          ["10.0.0.1"; "provider=aws region=eu-west-1"]].
Proof.
  assert (Old :
  (exists rest,
     events (retryJoinWanIter cfg attempt w)
     = CallJoinWAN (RetryJoinWan cfg) :: rest
     /\ Forall (fun e => isJoin e = false /\ isDiscover e = false) rest)
  /\ Forall (wanVerbatim cfg) (events (retryJoinWan cfg fuel w))
  /\ count isJoinWAN (events (retryJoinWan cfg fuel w))
     = match RetryJoinWan cfg with
       | [] => 0%nat
       | _ :: _ => wanRounds cfg fuel w
       end
  /\ events (retryJoinWan (C := scripted)
               (wanConfig ["10.0.0.1"; "provider=aws region=eu-west-1"] 0)
               1 silent)
     = [wanStart;
        CallJoinWAN ["10.0.0.1"; "provider=aws region=eu-west-1"];
        Printf wanWarning
          [VError (Some "connection refused"); VDuration 30000000000];
        Sleep 30000000000]).
  { split; [apply retryJoinWanIter_events|].
    assert (Hround : forall a w',
               Forall (wanVerbatim cfg) (events (retryJoinWanIter cfg a w'))
               /\ count isJoinWAN (events (retryJoinWanIter cfg a w')) = 1%nat).
    { intros a w'. destruct (retryJoinWanIter_events cfg a w') as (rest & -> & Hr).
      split.
      - constructor; [reflexivity|].
        eapply Forall_impl; [|exact Hr].
        intros [] [Hj Hd]; simpl; try exact I; discriminate.
      - rewrite count_cons. simpl. f_equal. apply count_none.
        eapply Forall_impl; [|exact Hr].
        intros e [Hj _]. unfold isJoin in Hj.
        now apply orb_false_iff in Hj as [_ Hj]. }
    destruct (RetryJoinWan cfg) as [|s l] eqn:E.
    - rewrite retryJoinWan_idle by exact E.
      repeat split. constructor.
    - assert (Hne : RetryJoinWan cfg <> []) by congruence.
      rewrite retryJoinWan_started by exact Hne.
      rewrite events_after. repeat split.
      + constructor; [exact I|].
        apply (forever_Forall _ (wanVerbatim cfg)). intros a w'. apply Hround.
      + rewrite count_app. unfold wanRounds.
        rewrite (forever_count_rounds (retryJoinWanIter cfg) isJoinWAN 1)
          by (intros a w'; apply Hround).
        change (count isJoinWAN [wanStart]) with 0%nat. lia. }
  destruct Old as (O1 & O2 & O3 & O4).
  split; [exact O1|]. split; [exact O2|]. split; [exact O3|]. split; [exact O4|].
  split; [|split; [|reflexivity]].
  - rewrite retryJoinWanIter_cases. cbv zeta.
    destruct (snd (fst (JoinWAN (RetryJoinWan cfg) w))); reflexivity.
  - intros ds. assert (E : RetryJoinWan cfg = [] \/ RetryJoinWan cfg <> [])
      by (destruct (RetryJoinWan cfg); [now left | now right]).
    destruct E as [E|E].
    + rewrite retryJoinWan_idle by exact E. now rewrite E.
    + rewrite retryJoinWan_started by exact E. rewrite world_after.
      rewrite taping_wan_run. unfold wanRounds.
      destruct (RetryJoinWan cfg); [congruence | reflexivity].
Qed.

(** The three ways a LAN round can go. *)
Lemma retryJoinIter_anatomy {W} {C : Cluster W} (cfg : Config)
  (addrs : list string) (disco : string) (attempt : Z) (w : W) :
  let cands := lanCandidates addrs disco w in
  let devs := events (discovered disco w) in
  let w1 := snd (resolution disco w) in
  let w2 := snd (JoinLAN cands w1) in
  let fail := failed (RetryMaxAttempts cfg) (RetryInterval cfg)
                lanExhausted lanWarning (lanErr addrs disco w) attempt in
  let r := retryJoinIter cfg addrs disco attempt w in
  (cands = [] /\ r = after devs (fail w1))
  \/ (cands <> [] /\ lanJoinError addrs disco w = None
      /\ r = ((Return, w2),
              devs ++ [CallJoinLAN cands;
                       Printf lanCompleted [VInt (fst (fst (JoinLAN cands w1)))]]))
  \/ (cands <> [] /\ lanJoinError addrs disco w <> None
      /\ r = after (devs ++ [CallJoinLAN cands]) (fail w2)).
Proof.
  cbv zeta. rewrite retryJoinIter_cases. cbv zeta.
  unfold lanErr, lanJoinError, lanCandidates.
  destruct (fst (fst (resolution disco w)) ++ addrs) as [|s l] eqn:E.
  - left. split; reflexivity.
  - right. destruct (snd (fst (JoinLAN (s :: l) _))) eqn:J.
    + right. repeat split; congruence.
    + left. repeat split; congruence.
Qed.

Lemma failed_lan_events {W} (cfg : Config) (err : Error) (attempt : Z) (w : W) :
  let r := failed (RetryMaxAttempts cfg) (RetryInterval cfg)
             lanExhausted lanWarning err attempt w in
  world r = w
  /\ count isJoinLAN (events r) = 0%nat
  /\ count isJoin (events r) = 0%nat
  /\ count isJoinCompleted (events r) = 0%nat
  /\ forall l, ~ In (CallJoinLAN l) (events r).
Proof.
  cbv zeta.
  destruct (failed_cases (RetryMaxAttempts cfg) (RetryInterval cfg)
              lanExhausted lanWarning err attempt w)
    as [(_ & _ & ->) | (_ & ->)];
    (split; [reflexivity|]); (split; [reflexivity|]);
    (split; [reflexivity|]); (split; [reflexivity|]);
    unfold events; simpl; intros l H;
    repeat (destruct H as [H|H]; [discriminate H|]); exact H.
Qed.

(** The join calls of a LAN round. *)
Lemma retryJoinIter_joins {W} {C : Cluster W} (cfg : Config)
  (addrs : list string) (disco : string) (attempt : Z) (w : W) :
  let cands := lanCandidates addrs disco w in
  let r := retryJoinIter cfg addrs disco attempt w in
  (forall l, In (CallJoinLAN l) (events r) -> l = cands /\ cands <> [])
  /\ (cands <> [] ->
      In (CallJoinLAN cands) (events r) /\ count isJoinLAN (events r) = 1%nat)
  /\ (cands = [] -> count isJoin (events r) = 0%nat).
Proof.
  cbv zeta.
  destruct (discovered_resolution disco w) as (_ & D & _).
  apply discovery_counts in D as (Dc & Dj & DjL & Din).
  destruct (retryJoinIter_anatomy cfg addrs disco attempt w)
    as [(E & ->) | [(E & J & ->) | (E & J & ->)]];
    rewrite ?events_after.
  - destruct (failed_lan_events cfg (lanErr addrs disco w) attempt
                (snd (resolution disco w))) as (_ & FL & FJ & _ & Fin).
    split; [|split].
    + intros l Hin. apply in_app_or in Hin as [Hin|Hin];
        [now apply Din in Hin | now apply Fin in Hin].
    + congruence.
    + intros _. rewrite count_app, Dj, FJ. reflexivity.
  - rewrite events_pair. split; [|split].
    + intros l Hin. apply in_app_or in Hin as [Hin|[Hin|[Hin|[]]]];
        [now apply Din in Hin | | discriminate Hin].
      injection Hin as <-. split; [reflexivity | exact E].
    + intros _. split.
      * apply in_or_app. right. now left.
      * rewrite count_app, DjL. reflexivity.
    + congruence.
  - destruct (failed_lan_events cfg (lanErr addrs disco w) attempt
                (snd (JoinLAN (lanCandidates addrs disco w)
                        (snd (resolution disco w)))))
      as (_ & FL & FJ & _ & Fin).
    split; [|split].
    + intros l Hin. apply in_app_or in Hin as [Hin|Hin];
        [|now apply Fin in Hin].
      apply in_app_or in Hin as [Hin|[Hin|[]]]; [now apply Din in Hin|].
      injection Hin as <-. split; [reflexivity | exact E].
    + intros _. split.
      * apply in_or_app. left. apply in_or_app. right. now left.
      * rewrite !count_app, DjL, FL. reflexivity.
    + congruence.
Qed.

Lemma retryJoinIter_failed {W} {C : Cluster W} (cfg : Config)
  (addrs : list string) (disco : string) (attempt : Z) (w : W) :
  lanFails addrs disco w ->
  FailedRound (RetryMaxAttempts cfg) (RetryInterval cfg) lanExhausted lanWarning
    (lanErr addrs disco w) attempt (retryJoinIter cfg addrs disco attempt w).
Proof.
  intros Hf.
  destruct (discovered_resolution disco w) as (_ & D & _).
  apply isDiscovery_quiet in D as [Q _].
  destruct (retryJoinIter_anatomy cfg addrs disco attempt w)
    as [(E & ->) | [(E & J & ->) | (E & J & ->)]].
  - now apply failed_round.
  - destruct Hf as [Hf|Hf]; contradiction.
  - apply failed_round. apply Forall_app. split; [exact Q | repeat constructor].
Qed.

Lemma retryJoinIter_succeeded {W} {C : Cluster W} (cfg : Config)
  (addrs : list string) (disco : string) (attempt : Z) (w : W) :
  let r := retryJoinIter cfg addrs disco attempt w in
  lanCandidates addrs disco w <> [] ->
  lanJoinError addrs disco w = None ->
  value r = Return
  /\ count isChanSend (events r) = 0%nat
  /\ count isJoinCompleted (events r) = 1%nat
  /\ count isSleep (events r) = 0%nat.
Proof.
  cbv zeta. intros Hc Hj.
  destruct (discovered_resolution disco w) as (_ & D & _).
  apply discovery_counts in D as ([Ds Dw Dx Dc] & _).
  destruct (retryJoinIter_anatomy cfg addrs disco attempt w)
    as [(E & ->) | [(E & J & ->) | (E & J & ->)]]; try contradiction.
  rewrite events_pair, !count_app, Dx, Dc, Ds. repeat split.
Qed.

Lemma retryJoinIter_returns {W} {C : Cluster W} (cfg : Config)
  (addrs : list string) (disco : string) (attempt : Z) (w : W) :
  value (retryJoinIter cfg addrs disco attempt w) = Return ->
  (lanCandidates addrs disco w <> [] /\ lanJoinError addrs disco w = None)
  \/ (RetryMaxAttempts cfg > 0 /\ incr attempt > RetryMaxAttempts cfg).
Proof.
  intros Hr.
  destruct (retryJoinIter_anatomy cfg addrs disco attempt w)
    as [(E & _) | [(E & J & _) | (E & J & _)]].
  - right.
    destruct (retryJoinIter_failed cfg addrs disco attempt w) as (Hv & _);
      [now left | now apply Hv].
  - left. now split.
  - right.
    destruct (retryJoinIter_failed cfg addrs disco attempt w) as (Hv & _);
      [now right | now apply Hv].
Qed.

Lemma retryJoinWanIter_failed {W} {C : Cluster W} (cfg : Config)
  (attempt : Z) (w : W) :
  wanFails cfg w ->
  FailedRound (RetryMaxAttemptsWan cfg) (RetryIntervalWan cfg)
    wanExhausted wanWarning (snd (fst (JoinWAN (RetryJoinWan cfg) w)))
    attempt (retryJoinWanIter cfg attempt w).
Proof.
  unfold wanFails. intros Hf. rewrite retryJoinWanIter_cases. cbv zeta.
  destruct (snd (fst (JoinWAN _ _))) as [e|]; [|congruence].
  apply failed_round. repeat constructor.
Qed.

(** C5: a LAN round whose candidate list is empty calls no join operation
    (the world stays as discovery left it), does not complete, and ends as a
    failed round whose error is "No servers to join": the counter is
    incremented and the round either exhausts the attempts or warns with that
    error, sleeps and goes round again. *)
Theorem empty_candidates_fail_without_join {W} {C : Cluster W} (cfg : Config)
  (addrs : list string) (disco : string) (attempt : Z) (w : W) :
  lanCandidates addrs disco w = [] ->
  let r := retryJoinIter cfg addrs disco attempt w in
  count isJoin (events r) = 0%nat
  /\ world r = snd (resolution disco w)
  /\ count isJoinCompleted (events r) = 0%nat
  /\ FailedRound (RetryMaxAttempts cfg) (RetryInterval cfg)
       lanExhausted lanWarning (Errorf "No servers to join") attempt r.
Proof.
  intros Hc r. subst r.
  assert (He : lanErr addrs disco w = Errorf "No servers to join").
  { unfold lanErr. now rewrite Hc. }
  split; [now apply retryJoinIter_joins|].
  split; [|split].
  - destruct (retryJoinIter_anatomy cfg addrs disco attempt w)
      as [(_ & ->) | [(E & _) | (E & _)]]; try contradiction.
    rewrite world_after. apply failed_lan_events.
  - destruct (discovered_resolution disco w) as (_ & D & _).
    apply discovery_counts in D as ([_ _ _ Dc] & _).
    destruct (retryJoinIter_anatomy cfg addrs disco attempt w)
      as [(_ & ->) | [(E & _) | (E & _)]]; try contradiction.
    rewrite events_after, count_app, Dc.
    now destruct (failed_lan_events cfg (lanErr addrs disco w) attempt
                    (snd (resolution disco w))) as (_ & _ & _ & -> & _).
  - rewrite <- He. apply retryJoinIter_failed. now left.
Qed.

Lemma empty_candidates_fail_without_join_witness :
  lanCandidates (C := scripted) [] "provider=aws" silent = []
  /\ count isJoin
       (events (retryJoinIter (C := scripted) (lanConfig ["provider=aws"] 0)
                  [] "provider=aws" 0 silent)) = 0%nat.
Proof.
  split; [reflexivity|].
  exact (proj1 (empty_candidates_fail_without_join (C := scripted)
                  (lanConfig ["provider=aws"] 0) [] "provider=aws" 0 silent
                  eq_refl)).
Defined.

(** The loop does not clear [servers] itself: addresses that come back
    together with an error are logged and joined like any others. *)
Lemma addresses_returned_with_an_error_are_used :
  events (retryJoinIter (C := scripted)
            (lanConfig ["provider=aws"; "10.0.0.1"] 0)
            ["10.0.0.1"] "provider=aws" 0
            (mkScript [(["10.9.9.9"], Some "partial result")] [(2, None)]))
  = [CallDiscover "provider=aws";
     Printf "[ERR] agent: %s" [VError (Some "partial result")];
     Printf "[ERR] agent: Discovered servers: %v" [VStrings ["10.9.9.9"]];
     CallJoinLAN ["10.9.9.9"; "10.0.0.1"];
     Printf lanCompleted [VInt 2]].
Proof. reflexivity. Qed.

(** C4 as it stands does not hold.  Discovery answers with one address and
    an error; the static address is "10.0.0.1".  Discovery has failed, and
    the list [JoinLAN] is applied to, as the collaborator has kept it, is the
    address that came with the error followed by the static one: not the
    static addresses alone. *)
Lemma discovery_error_with_addresses_is_joined :
  discoveryFails (C := taping) "provider=aws" partialTape
  /\ asked (world (retryJoinIter (C := taping)
                     (lanConfig ["provider=aws"; "10.0.0.1"] 0)
                     ["10.0.0.1"] "provider=aws" 0 partialTape))
     = [["10.9.9.9"; "10.0.0.1"]]
  /\ lanCandidates (C := taping) ["10.0.0.1"] "provider=aws" partialTape
     <> ["10.0.0.1"]
  /\ ~ (forall l,
          In (CallJoinLAN l)
            (events (retryJoinIter (C := taping)
                       (lanConfig ["provider=aws"; "10.0.0.1"] 0)
                       ["10.0.0.1"] "provider=aws" 0 partialTape)) ->
          l = ["10.0.0.1"]).
Proof.
  split; [discriminate|]. split; [reflexivity|]. split; [discriminate|].
  intros H. specialize (H ["10.9.9.9"; "10.0.0.1"]).
  assert (E : ["10.9.9.9"; "10.0.0.1"] = ["10.0.0.1"]); [|discriminate E].
  apply H. vm_compute. tauto.
Qed.



(** C2: a failed round of either loop increments the counter ([attempt++],
    which adds one below the largest [int]) and then returns with the send
    of the terminal error exactly when the bound is positive and the
    incremented counter is greater than it; otherwise it sends nothing, logs
    the warning with the configured interval, sleeps for that interval and
    goes round again with the incremented counter. *)
Theorem failed_round_counts_then_exhausts_or_retries {W} {C : Cluster W}
  (cfg : Config) (addrs : list string) (disco : string) (attempt : Z) (w : W) :
  (MinInt <= attempt < MaxInt -> incr attempt = attempt + 1)
  /\ (lanFails addrs disco w ->
      FailedRound (RetryMaxAttempts cfg) (RetryInterval cfg)
        lanExhausted lanWarning (lanErr addrs disco w)
        attempt (retryJoinIter cfg addrs disco attempt w))
  /\ (wanFails cfg w ->
      FailedRound (RetryMaxAttemptsWan cfg) (RetryIntervalWan cfg)
        wanExhausted wanWarning (snd (fst (JoinWAN (RetryJoinWan cfg) w)))
        attempt (retryJoinWanIter cfg attempt w)).
Proof.
  split; [apply incr_no_overflow|].
  split; [apply retryJoinIter_failed | apply retryJoinWanIter_failed].
Qed.

Lemma failed_round_counts_then_exhausts_or_retries_witness :
  (MinInt <= 2 < MaxInt /\ incr 2 = 3)
  /\ (lanFails (C := scripted) ["10.0.0.1"] "" silent
      /\ FailedRound 2 30000000000 lanExhausted lanWarning
           (lanErr (C := scripted) ["10.0.0.1"] "" silent) 2
           (retryJoinIter (C := scripted) (lanConfig ["10.0.0.1"] 2)
              ["10.0.0.1"] "" 2 silent))
  /\ (wanFails (C := scripted) (wanConfig ["10.0.0.2"] 2) silent
      /\ FailedRound 2 30000000000 wanExhausted wanWarning
           (Some "connection refused") 2
           (retryJoinWanIter (C := scripted) (wanConfig ["10.0.0.2"] 2) 2 silent)).
Proof.
  assert (R : MinInt <= 2 < MaxInt) by (vm_compute; split; congruence).
  assert (L : lanFails (C := scripted) ["10.0.0.1"] "" silent)
    by (right; discriminate).
  assert (N : wanFails (C := scripted) (wanConfig ["10.0.0.2"] 2) silent)
    by discriminate.
  destruct (failed_round_counts_then_exhausts_or_retries (C := scripted)
              (lanConfig ["10.0.0.1"] 2) ["10.0.0.1"] "" 2 silent)
    as (H1 & H2 & _).
  destruct (failed_round_counts_then_exhausts_or_retries (C := scripted)
              (wanConfig ["10.0.0.2"] 2) [] "" 2 silent)
    as (_ & _ & H3).
  split; [split; [exact R | exact (H1 R)]|].
  split; [split; [exact L | exact (H2 L)]|].
  split; [exact N | exact (H3 N)].
Defined.

(** ** Whole runs *)

Lemma completed_not_send (fmt : string) (n : Z) :
  count isChanSend [Printf fmt [VInt n]] = 0%nat
  /\ count isSleep [Printf fmt [VInt n]] = 0%nat.
Proof. split; reflexivity. Qed.

(** What the shape of a run says about its counts. *)
Lemma RunShape_facts (maxAttempts : Z) (msg : string) (k : nat)
  (v : option unit) (evs : list Event) :
  RunShape maxAttempts msg k v evs ->
  (count isChanSend evs <= 1)%nat
  /\ (maxAttempts <= 0 -> count isChanSend evs = 0%nat)
  /\ (v = None ->
      Calm k evs)
  /\ (v = Some tt ->
      (1 <= k)%nat
      /\ exists pre e,
           evs = pre ++ [e] /\ Calm (k - 1) pre
           /\ (isJoinCompleted e = true \/ e = ChanSend (Errorf msg)))
  /\ (count isJoinCompleted evs <> 0%nat ->
      v = Some tt
      /\ count isJoinCompleted evs = 1%nat
      /\ count isChanSend evs = 0%nat
      /\ S (count isSleep evs) = k
      /\ exists pre fmt n, evs = pre ++ [Printf fmt [VInt n]])
  /\ (count isChanSend evs <> 0%nat ->
      v = Some tt
      /\ maxAttempts > 0
      /\ count isJoinCompleted evs = 0%nat
      /\ S (count isSleep evs) = k
      /\ exists pre, evs = pre ++ [ChanSend (Errorf msg)]).
Proof.
  intros [k' evs' [Hs Hw Hx Hc] | k' pre fmt n [Hs Hw Hx Hc] Hf
         | k' pre [Hs Hw Hx Hc] Hm].
  - rewrite Hx, Hc. repeat split; try lia; try congruence.
  - rewrite !count_app, Hx, Hc, Hs, !count_cons, !count_nil, Hf. simpl.
    rewrite Nat.sub_0_r.
    split; [lia|]. split; [lia|]. split; [discriminate|].
    split; [|split].
    + intros _. split; [lia|]. exists pre, (Printf fmt [VInt n]).
      repeat split; try assumption. now left.
    + intros _. repeat split; try lia. now exists pre, fmt, n.
    + intros H. now contradiction H.
  - rewrite !count_app, Hx, Hc, Hs, !count_cons, !count_nil. simpl.
    rewrite Nat.sub_0_r.
    split; [lia|]. split; [lia|]. split; [discriminate|].
    split; [|split].
    + intros _. split; [lia|]. exists pre, (ChanSend (Errorf msg)).
      repeat split; try assumption. now right.
    + intros H. now contradiction H.
    + intros _. repeat split; try lia. now exists pre.
Qed.



Lemma retryJoin_going {W} {C : Cluster W} (cfg : Config) (fuel : nat) (w : W) :
  RetryJoin cfg <> [] ->
  value (retryJoin cfg fuel w) = None -> lanRounds cfg fuel w = fuel.
Proof.
  intros Hne. rewrite retryJoin_started by exact Hne. rewrite value_after.
  apply forever_going.
Qed.

Lemma retryJoinWan_going {W} {C : Cluster W} (cfg : Config) (fuel : nat) (w : W) :
  RetryJoinWan cfg <> [] ->
  value (retryJoinWan cfg fuel w) = None -> wanRounds cfg fuel w = fuel.
Proof.
  intros Hne. rewrite retryJoinWan_started by exact Hne. rewrite value_after.
  apply forever_going.
Qed.

Lemma RunShape_unbounded (maxAttempts : Z) (msg : string) (fuel k : nat)
  (v : option unit) (evs : list Event) :
  maxAttempts <= 0 -> (v = None -> k = fuel) ->
  RunShape maxAttempts msg k v evs -> Unbounded fuel k (v, evs).
Proof.
  intros Hm Hk H.
  destruct (RunShape_facts _ _ _ _ _ H) as (_ & H0 & Hn & Hs & Hc & _).
  unfold Unbounded; simpl. split; [now apply H0|]. split.
  - intros ->. destruct (Hs eq_refl) as (_ & pre & e & -> & [_ _ Hx Hd] & [He | ->]).
    + rewrite count_app, Hd, count_cons, He. reflexivity.
    + specialize (H0 Hm). rewrite count_app, Hx in H0. discriminate H0.
  - intros Hz. destruct v as [[]|].
    + destruct (Hs eq_refl) as (_ & pre & e & -> & [_ _ Hx Hd] & [He | ->]).
      * rewrite count_app, Hd, count_cons, He in Hz. discriminate Hz.
      * specialize (H0 Hm). rewrite count_app, Hx in H0. discriminate H0.
    + specialize (Hk eq_refl). subst k.
      destruct (Hn eq_refl) as [Hsl _ _ _]. now repeat split.
Qed.

Lemma FailedRound_unbounded {W} (maxAttempts interval : Z)
  (exhausted warning : string) (err : Error) (attempt : Z)
  (r : (Ctl * W) * list Event) :
  maxAttempts <= 0 ->
  FailedRound maxAttempts interval exhausted warning err attempt r ->
  value r = Continue (incr attempt)
  /\ count isChanSend (events r) = 0%nat
  /\ count isSleep (events r) = 1%nat.
Proof.
  intros Hm (_ & _ & _ & H).
  destruct H as (Hv & Hx & pre & He & [Hs _ _ _]); [lia|].
  repeat split; try assumption.
  rewrite He, count_app, Hs. reflexivity.
Qed.

Lemma retryJoinWanIter_returns {W} {C : Cluster W} (cfg : Config)
  (attempt : Z) (w : W) :
  let r := retryJoinWanIter cfg attempt w in
  (~ wanFails cfg w ->
   value r = Return
   /\ count isChanSend (events r) = 0%nat
   /\ count isJoinCompleted (events r) = 1%nat)
  /\ (value r = Return ->
      ~ wanFails cfg w
      \/ (RetryMaxAttemptsWan cfg > 0 /\ incr attempt > RetryMaxAttemptsWan cfg)).
Proof.
  cbv zeta. split.
  - unfold wanFails. intros Hs. rewrite retryJoinWanIter_cases. cbv zeta.
    destruct (snd (fst (JoinWAN _ _))) as [e|]; [now contradiction Hs|].
    repeat split.
  - intros Hr. destruct (snd (fst (JoinWAN (RetryJoinWan cfg) w))) as [e|] eqn:E.
    + right. destruct (retryJoinWanIter_failed cfg attempt w) as (Hv & _).
      * unfold wanFails. congruence.
      * now apply Hv.
    + left. unfold wanFails. congruence.
Qed.

(** C6: with a bound of zero no round sends on the channel, a failed round
    (join error, nothing to join, with or without a discovery error) always
    goes round again, and a round returns only after a successful join.  So a
    run never sends a terminal error; if it has returned, it has not started
    or has completed a join; and as long as no join has completed it is still
    running after any number of rounds, having slept once per round. *)
Theorem unbounded_retry_never_terminal {W} {C : Cluster W} (cfg : Config)
  (fuel : nat) (attempt : Z) (w : W) :
  (RetryMaxAttempts cfg = 0 ->
   (forall addrs disco,
      let i := retryJoinIter cfg addrs disco attempt w in
      count isChanSend (events i) = 0%nat
      /\ (lanFails addrs disco w -> value i = Continue (incr attempt))
      /\ (value i = Return ->
          lanCandidates addrs disco w <> [] /\ lanJoinError addrs disco w = None))
   /\ let r := retryJoin cfg fuel w in
      count isChanSend (events r) = 0%nat
      /\ (value r = Some tt ->
          RetryJoin cfg = [] \/ count isJoinCompleted (events r) = 1%nat)
      /\ (RetryJoin cfg <> [] -> count isJoinCompleted (events r) = 0%nat ->
          value r = None /\ lanRounds cfg fuel w = fuel
          /\ count isSleep (events r) = fuel))
  /\ (RetryMaxAttemptsWan cfg = 0 ->
      (let i := retryJoinWanIter cfg attempt w in
       count isChanSend (events i) = 0%nat
       /\ (wanFails cfg w -> value i = Continue (incr attempt))
       /\ (value i = Return -> ~ wanFails cfg w))
      /\ let r := retryJoinWan cfg fuel w in
         count isChanSend (events r) = 0%nat
         /\ (value r = Some tt ->
             RetryJoinWan cfg = [] \/ count isJoinCompleted (events r) = 1%nat)
         /\ (RetryJoinWan cfg <> [] -> count isJoinCompleted (events r) = 0%nat ->
             value r = None /\ wanRounds cfg fuel w = fuel
             /\ count isSleep (events r) = fuel)).
Proof.
  split; intros Hmax.
  - split.
    + intros addrs disco i. subst i.
      assert (Hret : value (retryJoinIter cfg addrs disco attempt w) = Return ->
                     lanCandidates addrs disco w <> []
                     /\ lanJoinError addrs disco w = None).
      { intros Hr. apply retryJoinIter_returns in Hr as [Hr|Hr]; [exact Hr | lia]. }
      assert (Hfail : lanFails addrs disco w ->
                      value (retryJoinIter cfg addrs disco attempt w)
                      = Continue (incr attempt)
                      /\ count isChanSend
                           (events (retryJoinIter cfg addrs disco attempt w))
                         = 0%nat).
      { intros Hf.
        destruct (FailedRound_unbounded _ _ _ _ _ _ _ (Z.eq_le_incl _ _ Hmax)
                    (retryJoinIter_failed cfg addrs disco attempt w Hf))
          as (Hv & Hx & _). now split. }
      split; [|split; [now intros Hf; apply Hfail | exact Hret]].
      destruct (retryJoinIter_anatomy cfg addrs disco attempt w)
        as [(E & _) | [(E & J & _) | (E & J & _)]].
      * apply Hfail. now left.
      * now apply retryJoinIter_succeeded.
      * apply Hfail. now right.
    + cbv zeta. destruct (RetryJoin cfg) as [|s l] eqn:E.
      * rewrite retryJoin_idle by exact E.
        repeat split; try (now left); congruence.
      * assert (Hne : RetryJoin cfg <> []) by congruence.
        destruct (RunShape_unbounded _ _ fuel _ _ _ (Z.eq_le_incl _ _ Hmax)
                    (retryJoin_going cfg fuel w Hne)
                    (retryJoin_shape cfg fuel w Hne)) as (H1 & H2 & H3).
        simpl in H1, H2, H3. split; [exact H1|].
        split; [intros Hv; right; now apply H2 | intros _; exact H3].
  - split.
    + cbv zeta.
      destruct (retryJoinWanIter_returns cfg attempt w) as (Hok & Hret).
      assert (Hfail : wanFails cfg w ->
                      value (retryJoinWanIter cfg attempt w)
                      = Continue (incr attempt)
                      /\ count isChanSend (events (retryJoinWanIter cfg attempt w))
                         = 0%nat).
      { intros Hf.
        destruct (FailedRound_unbounded _ _ _ _ _ _ _ (Z.eq_le_incl _ _ Hmax)
                    (retryJoinWanIter_failed cfg attempt w Hf))
          as (Hv & Hx & _). now split. }
      split; [|split].
      * unfold wanFails in *.
        destruct (snd (fst (JoinWAN (RetryJoinWan cfg) w))) as [e|].
        -- apply Hfail. discriminate.
        -- apply Hok. intros H. now apply H.
      * now intros Hf; apply Hfail.
      * intros Hr. destruct (Hret Hr) as [H|H]; [exact H | lia].
    + cbv zeta. destruct (RetryJoinWan cfg) as [|s l] eqn:E.
      * rewrite retryJoinWan_idle by exact E.
        repeat split; try (now left); congruence.
      * assert (Hne : RetryJoinWan cfg <> []) by congruence.
        destruct (RunShape_unbounded _ _ fuel _ _ _ (Z.eq_le_incl _ _ Hmax)
                    (retryJoinWan_going cfg fuel w Hne)
                    (retryJoinWan_shape cfg fuel w Hne)) as (H1 & H2 & H3).
        simpl in H1, H2, H3. split; [exact H1|].
        split; [intros Hv; right; now apply H2 | intros _; exact H3].
Qed.

Lemma unbounded_retry_never_terminal_witness :
  RetryMaxAttempts (lanConfig ["10.0.0.1"] 0) = 0
  /\ count isChanSend
       (events (retryJoin (C := scripted) (lanConfig ["10.0.0.1"] 0) 5 silent))
     = 0%nat
  /\ RetryMaxAttemptsWan (wanConfig ["10.0.0.2"] 0) = 0
  /\ count isChanSend
       (events (retryJoinWan (C := scripted) (wanConfig ["10.0.0.2"] 0) 5 silent))
     = 0%nat.
Proof.
  destruct (unbounded_retry_never_terminal (C := scripted)
              (lanConfig ["10.0.0.1"] 0) 5 0 silent) as (HL & _).
  destruct (unbounded_retry_never_terminal (C := scripted)
              (wanConfig ["10.0.0.2"] 0) 5 0 silent) as (_ & HW).
  split; [reflexivity|].
  split; [exact (proj1 (proj2 (HL eq_refl)))|].
  split; [reflexivity|].
  exact (proj1 (proj2 (HW eq_refl))).
Defined.



(** ** Exhaustion *)

Lemma RunShape_never_completed (maxAttempts : Z) (msg : string) (k : nat)
  (v : option unit) (evs : list Event) :
  RunShape maxAttempts msg k v evs ->
  count isJoinCompleted evs = 0%nat ->
  (v = None -> count isChanSend evs = 0%nat /\ count isSleep evs = k)
  /\ (v = Some tt ->
      count isChanSend evs = 1%nat
      /\ S (count isSleep evs) = k
      /\ exists pre, evs = pre ++ [ChanSend (Errorf msg)] /\ Calm (k - 1) pre).
Proof.
  intros H Hz.
  destruct (RunShape_facts _ _ _ _ _ H) as (_ & _ & Hn & Hs & _).
  split.
  - intros Hv. destruct (Hn Hv) as [Hsl _ Hx _]. now split.
  - intros Hv. destruct (Hs Hv) as (Hk & pre & e & -> & [Hsl Hw Hx Hc] & [He | ->]).
    + rewrite count_app, Hc, count_cons, He in Hz. discriminate Hz.
    + rewrite !count_app, Hx, Hsl, !count_cons, !count_nil. simpl.
      split; [reflexivity|]. split; [lia|].
      exists pre. split; [reflexivity | now split].
Qed.







(** C8, on the code: [JoinLAN] fails with "connection refused", the
    attempts are not exhausted, and the LAN warning shows a nil error: the
    error of the join is held by the [err] of the inner block and never
    reaches the line.  The WAN loop, on the same failure, shows it. *)
Theorem lan_warning_omits_join_error :
  fst (@JoinLAN Script scripted ["10.0.0.1"] silent)
  = (0, Some "connection refused")
  /\ retryJoin (C := scripted) (lanConfig ["10.0.0.1"] 0) 1 silent
     = ((None, silent),
        [lanStart;
         CallJoinLAN ["10.0.0.1"];
         Printf lanWarning [VError None; VDuration 30000000000];
         Sleep 30000000000])
  /\ retryJoinWan (C := scripted) (wanConfig ["10.0.0.1"] 0) 1 silent
     = ((None, silent),
        [wanStart;
         CallJoinWAN ["10.0.0.1"];
         Printf wanWarning [VError (Some "connection refused"); VDuration 30000000000];
         Sleep 30000000000])
  /\ events (retryJoinIter (C := scripted)
               (lanConfig ["provider=aws"; "10.0.0.1"] 0)
               ["10.0.0.1"] "provider=aws" 0
               (mkScript [([], Some "no such host")] []))
     = [CallDiscover "provider=aws";
        Printf "[ERR] agent: %s" [VError (Some "no such host")];
        Printf "[ERR] agent: Discovered servers: %v" [VStrings []];
        CallJoinLAN ["10.0.0.1"];
        Printf lanWarning [VError (Some "no such host"); VDuration 30000000000];
        Sleep 30000000000].
Proof. repeat split. Qed.

(** * Further properties of the two loops *)

Lemma failed_agree {W} (m m' interval : Z) (exhausted warning : string)
  (err : Error) (attempt : Z) (w : W) :
  m = m' \/ (m <= 0 /\ m' <= 0) ->
  failed m interval exhausted warning err attempt w
  = failed m' interval exhausted warning err attempt w.
Proof.
  intros [->|[H H']]; [reflexivity|].
  unfold failed.
  destruct (Z.gtb_spec m 0); [lia|]. destruct (Z.gtb_spec m' 0); [lia|].
  reflexivity.
Qed.

Lemma forever_ext {W} (body body' : Z -> M W Ctl) :
  (forall attempt w, body attempt w = body' attempt w) ->
  forall fuel attempt w,
    forever body fuel attempt w = forever body' fuel attempt w.
Proof.
  intros Hb. induction fuel as [|fuel IH]; intros attempt w; [reflexivity|].
  rewrite !forever_S, <- Hb.
  destruct (fst (fst (body attempt w))); [reflexivity|]. now rewrite IH.
Qed.

Lemma retryJoinIter_agree {W} {C : Cluster W} (cfg cfg' : Config)
  (addrs : list string) (disco : string) (attempt : Z) (w : W) :
  lanAgree cfg cfg' ->
  retryJoinIter cfg addrs disco attempt w
  = retryJoinIter cfg' addrs disco attempt w.
Proof.
  intros (_ & Hi & Hm). rewrite !retryJoinIter_cases. cbv zeta.
  rewrite <- Hi.
  destruct (_ ++ addrs); [now rewrite (failed_agree _ _ _ _ _ _ _ _ Hm)|].
  destruct (snd (fst (JoinLAN _ _))); [|reflexivity].
  now rewrite (failed_agree _ _ _ _ _ _ _ _ Hm).
Qed.

Lemma retryJoinWanIter_agree {W} {C : Cluster W} (cfg cfg' : Config)
  (attempt : Z) (w : W) :
  wanAgree cfg cfg' ->
  retryJoinWanIter cfg attempt w = retryJoinWanIter cfg' attempt w.
Proof.
  intros (Hl & Hi & Hm). rewrite !retryJoinWanIter_cases. cbv zeta.
  rewrite <- Hi, <- Hl.
  destruct (snd (fst (JoinWAN _ _))); [|reflexivity].
  now rewrite (failed_agree _ _ _ _ _ _ _ _ Hm).
Qed.

(** X1: each loop reads only its own three settings.  Two configurations
    with the same [RetryJoin], [RetryInterval] and [RetryMaxAttempts] give the
    same LAN run, event for event, whatever their WAN settings, and the same
    with the roles exchanged; and a negative bound is read as no bound: a run
    with it is the run with the bound 0. *)
Theorem loops_read_only_their_own_settings {W} {C : Cluster W}
  (cfg cfg' : Config) (fuel : nat) (w : W) :
  (lanAgree cfg cfg' -> retryJoin cfg fuel w = retryJoin cfg' fuel w)
  /\ (wanAgree cfg cfg' -> retryJoinWan cfg fuel w = retryJoinWan cfg' fuel w).
Proof.
  split.
  - intros H. pose proof H as (Hl & _).
    assert (E : RetryJoin cfg = [] \/ RetryJoin cfg <> [])
      by (destruct (RetryJoin cfg); [now left | now right]).
    destruct E as [E|E].
    + rewrite !retryJoin_idle; congruence.
    + rewrite !retryJoin_started by congruence.
      unfold lanAddrs, lanDisco. rewrite <- Hl.
      f_equal. apply forever_ext.
      intros a w'. now apply retryJoinIter_agree.
  - intros H. pose proof H as (Hl & _).
    assert (E : RetryJoinWan cfg = [] \/ RetryJoinWan cfg <> [])
      by (destruct (RetryJoinWan cfg); [now left | now right]).
    destruct E as [E|E].
    + rewrite !retryJoinWan_idle; congruence.
    + rewrite !retryJoinWan_started by congruence.
      f_equal. apply forever_ext.
      intros a w'. now apply retryJoinWanIter_agree.
Qed.

Lemma loops_read_only_their_own_settings_witness :
  lanAgree (mkConfig ["10.0.0.1"] 5 (-3) ["10.0.0.2"] 7 4)
           (mkConfig ["10.0.0.1"] 5 0 [] 9 1)
  /\ retryJoin (C := scripted) (mkConfig ["10.0.0.1"] 5 (-3) ["10.0.0.2"] 7 4)
       6 silent
     = retryJoin (C := scripted) (mkConfig ["10.0.0.1"] 5 0 [] 9 1) 6 silent.
Proof.
  assert (A : lanAgree (mkConfig ["10.0.0.1"] 5 (-3) ["10.0.0.2"] 7 4)
                       (mkConfig ["10.0.0.1"] 5 0 [] 9 1)).
  { split; [reflexivity|]. split; [reflexivity|]. right. simpl. lia. }
  split; [exact A|].
  exact (proj1 (loops_read_only_their_own_settings (C := scripted)
                  (mkConfig ["10.0.0.1"] 5 (-3) ["10.0.0.2"] 7 4)
                  (mkConfig ["10.0.0.1"] 5 0 [] 9 1) 6 silent) A).
Defined.

Lemma IterShape_no_send {W} (maxAttempts interval : Z) (msg : string)
  (attempt : Z) (r : (Ctl * W) * list Event) :
  IterShape maxAttempts interval msg attempt r ->
  ~ (maxAttempts > 0 /\ incr attempt > maxAttempts) ->
  count isChanSend (events r) = 0%nat.
Proof.
  intros [pre fmt n w' Hq Hc | pre w' Hq Hm Hi | pre fmt err w' Hq Hw Hc Hn] Hno;
    rewrite events_pair, count_app, (calm_sends _ _ (Calm_quiet _ Hq)).
  - reflexivity.
  - now contradiction Hno.
  - reflexivity.
Qed.

(** X2: a bound equal to the largest [int] is one the counter can never
    exceed ([attempt++] wraps round before it would): with it neither loop
    ever sends the terminal error, however many rounds fail. *)
Theorem largest_bound_never_exhausts {W} {C : Cluster W} (cfg : Config)
  (fuel : nat) (w : W) :
  (MaxInt <= RetryMaxAttempts cfg ->
   count isChanSend (events (retryJoin cfg fuel w)) = 0%nat)
  /\ (MaxInt <= RetryMaxAttemptsWan cfg ->
      count isChanSend (events (retryJoinWan cfg fuel w)) = 0%nat).
Proof.
  split; intros Hmax.
  - assert (E : RetryJoin cfg = [] \/ RetryJoin cfg <> [])
      by (destruct (RetryJoin cfg); [now left | now right]).
    destruct E as [E|E]; [now rewrite retryJoin_idle|].
    rewrite retryJoin_started by exact E. rewrite events_after, count_app.
    rewrite (forever_count_rounds _ isChanSend 0); [reflexivity|].
    intros a w'. eapply IterShape_no_send; [apply retryJoinIter_shape|].
    pose proof (incr_range a). lia.
  - assert (E : RetryJoinWan cfg = [] \/ RetryJoinWan cfg <> [])
      by (destruct (RetryJoinWan cfg); [now left | now right]).
    destruct E as [E|E]; [now rewrite retryJoinWan_idle|].
    rewrite retryJoinWan_started by exact E. rewrite events_after, count_app.
    rewrite (forever_count_rounds _ isChanSend 0); [reflexivity|].
    intros a w'. eapply IterShape_no_send; [apply retryJoinWanIter_shape|].
    pose proof (incr_range a). lia.
Qed.

Lemma largest_bound_never_exhausts_witness :
  MaxInt <= RetryMaxAttemptsWan (wanConfig ["10.0.0.2"] MaxInt)
  /\ count isChanSend
       (events (retryJoinWan (C := refusing) (wanConfig ["10.0.0.2"] MaxInt)
                  7 0%nat)) = 0%nat.
Proof.
  assert (H : MaxInt <= RetryMaxAttemptsWan (wanConfig ["10.0.0.2"] MaxInt))
    by (simpl; lia).
  split; [exact H|].
  exact (proj2 (largest_bound_never_exhausts (C := refusing)
                  (wanConfig ["10.0.0.2"] MaxInt) 7 0%nat) H).
Defined.

Lemma completed_not_warn (fmt : string) (args : list Value) :
  isJoinCompleted (Printf fmt args) = true -> isWarn (Printf fmt args) = false.
Proof.
  unfold isJoinCompleted, isWarn, isLevel. intros H.
  apply orb_true_iff in H as [H|H]; apply HasPrefix_inv in H as [rest ->];
    reflexivity.
Qed.

Lemma quiet_paced (interval : Z) (evs : list Event) :
  Forall (fun e => quiet e = true) evs -> Forall (paced interval) evs.
Proof.
  intros H. eapply Forall_impl; [|exact H].
  intros e He. unfold quiet in He. apply negb_true_iff in He.
  apply orb_false_iff in He as [He Hc]. apply orb_false_iff in He as [He Hx].
  apply orb_false_iff in He as [Hs Hw].
  destruct e; try exact I.
  - intros Hw'. congruence.
  - discriminate Hs.
Qed.

Lemma IterShape_paced {W} (maxAttempts interval : Z) (msg : string)
  (attempt : Z) (r : (Ctl * W) * list Event) :
  IterShape maxAttempts interval msg attempt r ->
  Forall (paced interval) (events r).
Proof.
  intros [pre fmt n w' Hq Hc | pre w' Hq Hm Hi | pre fmt err w' Hq Hw Hc Hn];
    rewrite events_pair; apply Forall_app; (split; [now apply quiet_paced|]).
  - constructor; [|constructor]. intros Hw.
    apply completed_not_warn in Hc. congruence.
  - constructor; [exact I | constructor].
  - constructor; [intros _; now exists err|].
    constructor; [reflexivity | constructor].
Qed.

Lemma RunShape_sleeps_warnings (maxAttempts : Z) (msg : string) (k : nat)
  (v : option unit) (evs : list Event) :
  RunShape maxAttempts msg k v evs ->
  count isSleep evs = count isWarn evs
  /\ count isSleep evs = match v with None => k | Some _ => (k - 1)%nat end.
Proof.
  intros [k' evs' [Hs Hw _ _] | k' pre fmt n [Hs Hw _ _] Hf | k' pre [Hs Hw _ _] Hm].
  - split; congruence.
  - rewrite !count_app, Hs, Hw, !count_cons, !count_nil.
    rewrite (completed_not_warn _ _ Hf). simpl. lia.
  - rewrite !count_app, Hs, Hw, !count_cons, !count_nil. simpl. lia.
Qed.

(** X3: the retries are paced by the configured interval and nothing else.
    In a run of either loop every sleep is for exactly [RetryInterval]
    (resp. [RetryIntervalWan]), every warning announces that same interval,
    there is one sleep per warning, and their number is the number of rounds
    that failed and were retried: all rounds of a run still going, all but
    the last of a run that has returned. *)
Theorem retries_are_paced_by_the_interval {W} {C : Cluster W} (cfg : Config)
  (fuel : nat) (w : W) :
  (let evs := events (retryJoin cfg fuel w) in
   Forall (paced (RetryInterval cfg)) evs
   /\ count isSleep evs = count isWarn evs
   /\ (RetryJoin cfg <> [] ->
       count isSleep evs
       = match value (retryJoin cfg fuel w) with
         | None => lanRounds cfg fuel w
         | Some _ => (lanRounds cfg fuel w - 1)%nat
         end))
  /\ (let evs := events (retryJoinWan cfg fuel w) in
      Forall (paced (RetryIntervalWan cfg)) evs
      /\ count isSleep evs = count isWarn evs
      /\ (RetryJoinWan cfg <> [] ->
          count isSleep evs
          = match value (retryJoinWan cfg fuel w) with
            | None => wanRounds cfg fuel w
            | Some _ => (wanRounds cfg fuel w - 1)%nat
            end)).
Proof.
  split; cbv zeta.
  - assert (E : RetryJoin cfg = [] \/ RetryJoin cfg <> [])
      by (destruct (RetryJoin cfg); [now left | now right]).
    destruct E as [E|E].
    + rewrite retryJoin_idle by exact E. repeat split; [constructor | congruence].
    + destruct (RunShape_sleeps_warnings _ _ _ _ _ (retryJoin_shape cfg fuel w E))
        as [H1 H2].
      split; [|split; [exact H1 | intros _; exact H2]].
      rewrite retryJoin_started by exact E. rewrite events_after.
      apply Forall_app. split.
      * constructor; [|constructor]. intros Hw. discriminate Hw.
      * apply forever_Forall. intros a w'.
        eapply IterShape_paced. apply retryJoinIter_shape.
  - assert (E : RetryJoinWan cfg = [] \/ RetryJoinWan cfg <> [])
      by (destruct (RetryJoinWan cfg); [now left | now right]).
    destruct E as [E|E].
    + rewrite retryJoinWan_idle by exact E.
      repeat split; [constructor | congruence].
    + destruct (RunShape_sleeps_warnings _ _ _ _ _ (retryJoinWan_shape cfg fuel w E))
        as [H1 H2].
      split; [|split; [exact H1 | intros _; exact H2]].
      rewrite retryJoinWan_started by exact E. rewrite events_after.
      apply Forall_app. split.
      * constructor; [|constructor]. intros Hw. discriminate Hw.
      * apply forever_Forall. intros a w'.
        eapply IterShape_paced. apply retryJoinWanIter_shape.
Qed.

Lemma retries_are_paced_by_the_interval_witness :
  RetryJoinWan (wanConfig ["10.0.0.2"] 3) <> []
  /\ count isSleep
       (events (retryJoinWan (C := refusing) (wanConfig ["10.0.0.2"] 3) 9 0%nat))
     = 3%nat.
Proof.
  assert (H : RetryJoinWan (wanConfig ["10.0.0.2"] 3) <> []) by discriminate.
  split; [exact H|].
  exact (proj2 (proj2 (proj2 (retries_are_paced_by_the_interval (C := refusing)
                                (wanConfig ["10.0.0.2"] 3) 9 0%nat))) H).
Defined.

Lemma lanDisco_directive (cfg : Config) :
  directive (lanDisco cfg)
  = lastOption (filter (fun entry => Contains entry marker) (RetryJoin cfg)).
Proof.
  unfold lanDisco, splitRetryJoin. rewrite splitFrom_filter. simpl.
  destruct (lastOption _) as [d|] eqn:E; [|reflexivity].
  apply lastOption_In, filter_In in E as [_ E].
  apply Contains_marker_nonempty in E.
  unfold directive. destruct (String.eqb_spec d ""); congruence.
Qed.

Lemma discovered_calls {W} {C : Cluster W} (disco : string) (w : W) :
  Forall (resolves (directive disco)) (events (discovered disco w))
  /\ count isDiscover (events (discovered disco w))
     = match directive disco with Some _ => 1%nat | None => 0%nat end.
Proof.
  unfold discovered, directive, events.
  destruct (String.eqb_spec disco "") as [->|Hd]; simpl.
  - split; [constructor | reflexivity].
  - unfold bind, call, emit, ret.
    destruct (discoverAddrs disco w) as [[servers [e|]] w1]; simpl;
      (split; [repeat constructor | reflexivity]).
Qed.

Lemma retryJoinIter_calls {W} {C : Cluster W} (cfg : Config)
  (addrs : list string) (disco : string) (attempt : Z) (w : W) :
  let evs := events (retryJoinIter cfg addrs disco attempt w) in
  Forall (resolves (directive disco)) evs
  /\ Forall lanOnly evs
  /\ count isDiscover evs
     = match directive disco with Some _ => 1%nat | None => 0%nat end.
Proof.
  cbv zeta.
  destruct (discovered_calls disco w) as [Dr Dc].
  destruct (discovered_resolution disco w) as (_ & D & _).
  assert (Dl : Forall lanOnly (events (discovered disco w))).
  { eapply Forall_impl; [|exact D]. intros e He.
    destruct e; try exact I. discriminate He. }
  rewrite retryJoinIter_cases. cbv zeta.
  destruct (_ ++ addrs) as [|s l].
  - destruct (failed_cases (RetryMaxAttempts cfg) (RetryInterval cfg)
                lanExhausted lanWarning (Errorf "No servers to join") attempt
                (snd (resolution disco w)))
      as [(_ & _ & ->) | (_ & ->)];
      rewrite events_after, count_app, Dc;
      (split; [|split]);
      try (apply Forall_app; split; [assumption | repeat constructor]);
      simpl; destruct (directive disco); reflexivity.
  - destruct (snd (fst (JoinLAN _ _))) as [e|].
    + destruct (failed_cases (RetryMaxAttempts cfg) (RetryInterval cfg)
                  lanExhausted lanWarning (snd (fst (resolution disco w)))
                  attempt
                  (snd (JoinLAN (s :: l) (snd (resolution disco w)))))
        as [(_ & _ & ->) | (_ & ->)];
        rewrite events_after, !count_app, Dc;
        (split; [|split]);
        try (repeat (apply Forall_app; split); try assumption;
             repeat constructor);
        simpl; destruct (directive disco); reflexivity.
    + rewrite events_pair, count_app, Dc.
      (split; [|split]);
        try (apply Forall_app; split; [assumption | repeat constructor]);
        simpl; destruct (directive disco); reflexivity.
Qed.

(** X4: of several directives in [RetryJoin] only the last one is ever
    resolved.  Every call of [discover.Addrs] in a LAN run is for the last
    entry holding the marker; the run calls it once in every round when there
    is such an entry and never when there is none; and the LAN run places no
    call on the WAN side. *)
Theorem only_the_last_directive_is_resolved {W} {C : Cluster W} (cfg : Config)
  (fuel : nat) (w : W) :
  let last :=
    lastOption (filter (fun entry => Contains entry marker) (RetryJoin cfg)) in
  let evs := events (retryJoin cfg fuel w) in
  Forall (resolves last) evs
  /\ Forall lanOnly evs
  /\ count isDiscover evs
     = match last with
       | Some _ => lanRounds cfg fuel w
       | None => 0%nat
       end.
Proof.
  cbv zeta. rewrite <- lanDisco_directive.
  assert (E : RetryJoin cfg = [] \/ RetryJoin cfg <> [])
    by (destruct (RetryJoin cfg); [now left | now right]).
  destruct E as [E|E].
  - rewrite retryJoin_idle by exact E.
    split; [constructor|]. split; [constructor|].
    rewrite events_pair, count_nil.
    unfold lanRounds, lanDisco, lanAddrs. rewrite E. simpl.
    now destruct fuel.
  - rewrite retryJoin_started by exact E. rewrite events_after.
    split; [|split].
    + apply Forall_app. split; [repeat constructor|].
      apply forever_Forall. intros a w'. apply retryJoinIter_calls.
    + apply Forall_app. split; [repeat constructor|].
      apply forever_Forall. intros a w'. apply retryJoinIter_calls.
    + rewrite count_app. unfold lanRounds.
      rewrite (forever_count_rounds _ isDiscover
                 (match directive (lanDisco cfg) with
                  | Some _ => 1%nat | None => 0%nat end))
        by (intros a w'; apply retryJoinIter_calls).
      change (count isDiscover [lanStart]) with 0%nat.
      destruct (directive (lanDisco cfg)); lia.
Qed.

Lemma failed_retries {W} (maxAttempts interval : Z) (exhausted warning : string)
  (err : Error) (attempt : Z) (k : nat) (w : W) :
  maxAttempts <= 0
  \/ (MinInt <= attempt /\ attempt + Z.of_nat (S k) <= maxAttempts <= MaxInt) ->
  failed maxAttempts interval exhausted warning err attempt w
  = ((Continue (incr attempt), w),
     [Printf warning [VError err; VDuration interval]; Sleep interval])
  /\ (maxAttempts <= 0
      \/ (MinInt <= incr attempt
          /\ incr attempt + Z.of_nat k <= maxAttempts <= MaxInt)).
Proof.
  intros H.
  assert (Hi : maxAttempts <= 0 \/ incr attempt = attempt + 1).
  { destruct H as [H|H]; [now left | right].
    apply incr_no_overflow. lia. }
  split.
  - destruct (failed_cases maxAttempts interval exhausted warning err attempt w)
      as [(H1 & H2 & _) | (_ & E)]; [|exact E].
    destruct H as [H|H]; [lia|]. destruct Hi as [Hi|Hi]; lia.
  - destruct Hi as [Hi|Hi]; [now left|].
    destruct H as [H|H]; [now left | right]. rewrite Hi. lia.
Qed.

Lemma wan_refused_then_joined (cfg : Config) (n : Z)
  (ds : list (list string * Error)) (js : list (Z * Error)) (more : nat) :
  forall (k : nat) (attempt : Z),
    RetryMaxAttemptsWan cfg <= 0
    \/ (MinInt <= attempt
        /\ attempt + Z.of_nat k <= RetryMaxAttemptsWan cfg <= MaxInt) ->
    forever (retryJoinWanIter (C := scripted) cfg) (S k + more) attempt
      (refusedThenJoined k n ds js)
    = ((Some tt, mkScript ds js),
       List.concat (repeat (wanRefusedRound cfg) k)
       ++ [CallJoinWAN (RetryJoinWan cfg); Printf wanCompleted [VInt n]]).
Proof.
  induction k as [|k IH]; intros attempt Ha.
  - change (1 + more)%nat with (S more). rewrite forever_S.
    rewrite retryJoinWanIter_cases. reflexivity.
  - change (S (S k) + more)%nat with (S (S k + more)). rewrite forever_S.
    rewrite retryJoinWanIter_cases. cbv zeta.
    change (snd (fst (JoinWAN (RetryJoinWan cfg) (refusedThenJoined (S k) n ds js))))
      with (Some "connection refused").
    change (snd (JoinWAN (RetryJoinWan cfg) (refusedThenJoined (S k) n ds js)))
      with (refusedThenJoined k n ds js).
    cbv iota.
    destruct (failed_retries (RetryMaxAttemptsWan cfg) (RetryIntervalWan cfg)
                wanExhausted wanWarning (Some "connection refused") attempt k
                (refusedThenJoined k n ds js) Ha) as [-> Ha'].
    unfold after. cbn [fst snd]. rewrite (IH _ Ha'). reflexivity.
Qed.

Lemma lan_refused_then_joined (cfg : Config) (n : Z)
  (ds : list (list string * Error)) (js : list (Z * Error)) (more : nat) :
  lanAddrs cfg <> [] ->
  forall (k : nat) (attempt : Z),
    RetryMaxAttempts cfg <= 0
    \/ (MinInt <= attempt
        /\ attempt + Z.of_nat k <= RetryMaxAttempts cfg <= MaxInt) ->
    forever (retryJoinIter (C := scripted) cfg (lanAddrs cfg) "") (S k + more)
      attempt (refusedThenJoined k n ds js)
    = ((Some tt, mkScript ds js),
       List.concat (repeat (lanRefusedRound cfg) k)
       ++ [CallJoinLAN (lanAddrs cfg); Printf lanCompleted [VInt n]]).
Proof.
  intros Hne. induction k as [|k IH]; intros attempt Ha.
  - change (1 + more)%nat with (S more). rewrite forever_S.
    rewrite retryJoinIter_cases. cbv zeta. simpl.
    destruct (lanAddrs cfg); [congruence | reflexivity].
  - change (S (S k) + more)%nat with (S (S k + more)). rewrite forever_S.
    rewrite retryJoinIter_cases. cbv zeta.
    change (fst (fst (resolution "" (refusedThenJoined (S k) n ds js))))
      with (@nil string).
    change (snd (fst (resolution "" (refusedThenJoined (S k) n ds js))))
      with (@None string).
    change (snd (resolution "" (refusedThenJoined (S k) n ds js)))
      with (refusedThenJoined (S k) n ds js).
    change (events (discovered "" (refusedThenJoined (S k) n ds js)))
      with (@nil Event).
    rewrite !app_nil_l.
    destruct (lanAddrs cfg) as [|s l] eqn:E; [congruence|].
    change (snd (fst (JoinLAN (s :: l) (refusedThenJoined (S k) n ds js))))
      with (Some "connection refused").
    change (snd (JoinLAN (s :: l) (refusedThenJoined (S k) n ds js)))
      with (refusedThenJoined k n ds js).
    cbv iota.
    destruct (failed_retries (RetryMaxAttempts cfg) (RetryInterval cfg)
                lanExhausted lanWarning None attempt k
                (refusedThenJoined k n ds js) Ha) as [-> Ha'].
    unfold after. cbn [fst snd]. rewrite (IH _ Ha').
    unfold lanRefusedRound. rewrite E. reflexivity.
Qed.

Lemma lanDisco_none (cfg : Config) :
  lanDisco cfg = "" -> lanAddrs cfg = RetryJoin cfg.
Proof.
  intros Hd. pose proof (lanDisco_directive cfg) as H.
  rewrite Hd in H. unfold lanAddrs, splitRetryJoin.
  rewrite splitFrom_filter. simpl.
  change (directive "") with (@None string) in H.
  induction (RetryJoin cfg) as [|a l IH]; [reflexivity|].
  simpl in H |- *. destruct (Contains a marker) eqn:E; simpl.
  - destruct (lastOption_cons a (filter (fun entry => Contains entry marker) l))
      as [y Hy]. congruence.
  - f_equal. now apply IH.
Qed.

(** X5: a join that is refused [k] times and then accepted completes the
    run, provided the bound allows that many retries: no bound, or a bound of
    at least [k].  So with a bound [N] the attempt numbered [N + 1] still
    counts.  The run is then exactly the start line, [k] rounds of join call,
    warning and sleep, the last join call and the completion line with the
    number of nodes the join reported; nothing is sent. *)
Theorem join_accepted_after_refusals_completes (cfg : Config) (n : Z)
  (ds : list (list string * Error)) (js : list (Z * Error)) (k fuel : nat) :
  (k < fuel)%nat ->
  (RetryJoinWan cfg <> [] -> allows (RetryMaxAttemptsWan cfg) k ->
   retryJoinWan (C := scripted) cfg fuel (refusedThenJoined k n ds js)
   = ((Some tt, mkScript ds js),
      wanStart
      :: List.concat (repeat (wanRefusedRound cfg) k)
         ++ [CallJoinWAN (RetryJoinWan cfg); Printf wanCompleted [VInt n]]))
  /\ (RetryJoin cfg <> [] -> lanDisco cfg = "" ->
      allows (RetryMaxAttempts cfg) k ->
      retryJoin (C := scripted) cfg fuel (refusedThenJoined k n ds js)
      = ((Some tt, mkScript ds js),
         lanStart
         :: List.concat (repeat (lanRefusedRound cfg) k)
            ++ [CallJoinLAN (RetryJoin cfg); Printf lanCompleted [VInt n]])).
Proof.
  intros Hk. replace fuel with (S k + (fuel - S k))%nat by lia.
  assert (Hmin : MinInt <= 0) by (vm_compute; congruence).
  split.
  - intros Hne Hal. rewrite retryJoinWan_started by exact Hne.
    rewrite wan_refused_then_joined; [reflexivity|].
    destruct Hal as [Hal|Hal]; [now left | right]. lia.
  - intros Hne Hd Hal. rewrite retryJoin_started by exact Hne.
    pose proof (lanDisco_none cfg Hd) as Ha. rewrite Hd.
    rewrite lan_refused_then_joined.
    + rewrite Ha. reflexivity.
    + congruence.
    + destruct Hal as [Hal|Hal]; [now left | right]. lia.
Qed.

Lemma join_accepted_after_refusals_completes_witness :
  (2 < 3)%nat
  /\ RetryJoinWan (wanConfig ["10.0.0.2"] 2) <> []
  /\ allows (RetryMaxAttemptsWan (wanConfig ["10.0.0.2"] 2)) 2
  /\ retryJoinWan (C := scripted) (wanConfig ["10.0.0.2"] 2) 3
       (refusedThenJoined 2 5 [] [])
     = ((Some tt, mkScript [] []),
        wanStart
        :: List.concat (repeat (wanRefusedRound (wanConfig ["10.0.0.2"] 2)) 2)
           ++ [CallJoinWAN ["10.0.0.2"]; Printf wanCompleted [VInt 5]]).
Proof.
  assert (H1 : (2 < 3)%nat) by lia.
  assert (H2 : RetryJoinWan (wanConfig ["10.0.0.2"] 2) <> []) by discriminate.
  assert (H3 : allows (RetryMaxAttemptsWan (wanConfig ["10.0.0.2"] 2)) 2).
  { right. vm_compute. repeat split; congruence. }
  split; [exact H1|]. split; [exact H2|]. split; [exact H3|].
  exact (proj1 (join_accepted_after_refusals_completes
                  (wanConfig ["10.0.0.2"] 2) 5 [] [] 2 3 H1) H2 H3).
Defined.

Lemma discovery_warns_nothing (err : Error) (evs : list Event) :
  Forall (fun e => isDiscovery e = true) evs -> Forall (warnsOf err) evs.
Proof.
  intros H. eapply Forall_impl; [|exact H].
  intros e He. destruct e as [fmt args| | | | |]; try exact I.
  unfold isDiscovery, isDiscover, isLevel in He. rewrite orb_false_l in He.
  apply HasPrefix_inv in He as [rest ->]. intros Hw. discriminate Hw.
Qed.

Lemma nothing_to_join_round {W} {C : Cluster W} (cfg : Config)
  (addrs : list string) (disco : string) (attempt : Z) (w : W) :
  lanCandidates addrs disco w = [] ->
  let evs := events (retryJoinIter cfg addrs disco attempt w) in
  count isJoinCompleted evs = 0%nat
  /\ count isJoin evs = 0%nat
  /\ Forall (warnsOf (Errorf "No servers to join")) evs.
Proof.
  intros Hc. cbv zeta.
  destruct (discovered_resolution disco w) as (_ & D & _).
  pose proof (discovery_warns_nothing (Errorf "No servers to join") _ D) as Dw.
  apply discovery_counts in D as ([_ _ _ Dc] & _).
  split; [|split; [now apply retryJoinIter_joins|]];
    rewrite retryJoinIter_cases; cbv zeta;
    unfold lanCandidates in Hc; rewrite Hc;
    destruct (failed_cases (RetryMaxAttempts cfg) (RetryInterval cfg)
                lanExhausted lanWarning (Errorf "No servers to join") attempt
                (snd (resolution disco w)))
      as [(_ & _ & ->) | (_ & ->)];
    rewrite events_after.
  - rewrite count_app, Dc. reflexivity.
  - rewrite count_app, Dc. reflexivity.
  - apply Forall_app. split; [exact Dw | repeat constructor].
  - apply Forall_app. split; [exact Dw|].
    constructor; [intros _; now exists (RetryInterval cfg) | repeat constructor].
Qed.

(** X6: when no round has anything to join (a list made of directives only,
    and a discovery that finds nothing), a LAN run with a bound [N],
    [0 < N < MaxInt], makes no join call at all and still exhausts its
    attempts: it goes through [N + 1] rounds, every warning showing "No
    servers to join", and then sends the terminal error, once and last. *)
Theorem nothing_to_join_exhausts_without_join {W} {C : Cluster W} (cfg : Config)
  (N : Z) (fuel : nat) (w : W) :
  0 < N < MaxInt -> RetryMaxAttempts cfg = N -> RetryJoin cfg <> [] ->
  (forall w', lanCandidates (lanAddrs cfg) (lanDisco cfg) w' = []) ->
  let r := retryJoin cfg fuel w in
  count isJoin (events r) = 0%nat
  /\ Forall (warnsOf (Errorf "No servers to join")) (events r)
  /\ lanRounds cfg fuel w = Nat.min fuel (S (Z.to_nat N))
  /\ ((fuel <= Z.to_nat N)%nat ->
      value r = None /\ count isChanSend (events r) = 0%nat)
  /\ ((Z.to_nat N < fuel)%nat ->
      value r = Some tt
      /\ count isChanSend (events r) = 1%nat
      /\ count isSleep (events r) = Z.to_nat N
      /\ exists pre, events r = pre ++ [ChanSend (Errorf lanExhausted)]).
Proof.
  intros HN Hmax Hne Hc. cbv zeta.
  pose proof (fun a w' => nothing_to_join_round cfg _ _ a w' (Hc w')) as Hround.
  cbv zeta in Hround.
  pose proof (retryJoin_shape cfg fuel w Hne) as Hshape. rewrite Hmax in Hshape.
  destruct (forever_exhausts (retryJoinIter cfg (lanAddrs cfg) (lanDisco cfg))
              N (RetryInterval cfg) lanExhausted
              ltac:(intros a w'; rewrite <- Hmax; apply retryJoinIter_shape)
              fuel 0 w (fun a w' => proj1 (Hround a w')) HN ltac:(lia))
    as [Hk Hv].
  rewrite Z.sub_0_r in Hk, Hv. fold (lanRounds cfg fuel w) in Hk.
  assert (Hz : count isJoinCompleted (events (retryJoin cfg fuel w)) = 0%nat).
  { rewrite retryJoin_started by exact Hne. rewrite events_after, count_app.
    rewrite (forever_count_rounds _ isJoinCompleted 0)
      by (intros a w'; apply Hround).
    reflexivity. }
  destruct (RunShape_never_completed _ _ _ _ _ Hshape Hz) as [Hgo Hend].
  assert (Hval : value (retryJoin cfg fuel w)
                 = if (Z.to_nat N <? fuel)%nat then Some tt else None).
  { rewrite retryJoin_started by exact Hne. rewrite value_after. exact Hv. }
  split; [|split; [|split; [exact Hk|split]]].
  - rewrite retryJoin_started by exact Hne. rewrite events_after, count_app.
    rewrite (forever_count_rounds _ isJoin 0) by (intros a w'; apply Hround).
    reflexivity.
  - rewrite retryJoin_started by exact Hne. rewrite events_after.
    apply Forall_app. split.
    + constructor; [|constructor]. intros Hw. discriminate Hw.
    + apply forever_Forall. intros a w'. apply Hround.
  - intros Hle. apply Nat.ltb_ge in Hle. rewrite Hle in Hval.
    split; [exact Hval | now apply Hgo].
  - intros Hlt. pose proof Hlt as Hlt'. apply Nat.ltb_lt in Hlt'.
    rewrite Hlt' in Hval.
    destruct (Hend Hval) as (Hx & Hs & pre & He & _).
    repeat split; try assumption; [lia | now exists pre].
Qed.

Lemma nothing_to_join_exhausts_without_join_witness :
  0 < 2 < MaxInt
  /\ count isJoin
       (events (retryJoin (C := refusing) (lanConfig ["provider=aws"] 2) 6 0%nat))
     = 0%nat.
Proof.
  assert (R : 0 < 2 < MaxInt) by (vm_compute; split; reflexivity).
  split; [exact R|].
  refine (proj1 (nothing_to_join_exhausts_without_join (C := refusing)
                   (lanConfig ["provider=aws"] 2) 2 6 0%nat R eq_refl _ _)).
  - discriminate.
  - intros w'. reflexivity.
Defined.

(** * The Docker Engine client *)

(** ** Index and SplitN *)

Lemma Index_range (s sep : string) : Index s sep = -1 \/ 0 <= Index s sep.
Proof.
  induction s as [|c s IH]; simpl; destruct (HasPrefix _ sep);
    try (right; lia); try (now left).
  destruct IH as [->|IH]; [now left|].
  destruct (Z.ltb_spec (Index s sep) 0); [lia | right; lia].
Qed.

Lemma Index_Contains (s sep : string) :
  Index s sep < 0 <-> Contains s sep = false.
Proof.
  induction s as [|c s IH]; simpl.
  - destruct (HasPrefix "" sep); simpl; split; intros H; try lia; congruence.
  - destruct (HasPrefix (String c s) sep); simpl.
    + split; intros H; [lia | discriminate].
    + rewrite <- IH. destruct (Z.ltb_spec (Index s sep) 0); split; lia.
Qed.

Lemma HasPrefix_sliceTo (s p : string) (m : nat) :
  HasPrefix (sliceTo s m) p = true -> HasPrefix s p = true.
Proof.
  revert s m. induction p as [|c p IH]; intros s m H; [reflexivity|].
  destruct m as [|m], s as [|d s]; simpl in H |- *; try discriminate.
  apply andb_true_iff in H as [-> H]. simpl. now apply (IH s m).
Qed.

(** The first occurrence cuts [s] in two around the separator, and the part
    before it holds no occurrence. *)
Lemma sliceFrom_prefix (p t rest : string) :
  t = (p ++ rest)%string -> rest = sliceFrom t (String.length p).
Proof.
  revert t rest. induction p as [|a p IH]; intros t rest ->; [reflexivity|].
  simpl. now apply IH.
Qed.

Lemma Index_found (s sep : string) :
  sep <> "" ->
  0 <= Index s sep ->
  s = (sliceTo s (Z.to_nat (Index s sep)) ++ sep
       ++ sliceFrom s (Z.to_nat (Index s sep) + String.length sep))%string
  /\ Contains (sliceTo s (Z.to_nat (Index s sep))) sep = false.
Proof.
  intros Hsep.
  assert (Hnil : Contains "" sep = false) by (destruct sep; [congruence | reflexivity]).
  induction s as [|c s IH]; simpl.
  - destruct (HasPrefix "" sep) eqn:E; [|lia].
    destruct sep; [congruence | discriminate].
  - destruct (HasPrefix (String c s) sep) eqn:E.
    + intros _. simpl. split; [|exact Hnil].
      apply HasPrefix_inv in E as [rest E].
      rewrite E at 1. f_equal. now apply sliceFrom_prefix.
    + destruct (Z.ltb_spec (Index s sep) 0) as [Hlt|Hge]; [lia|]. intros _.
      destruct (IH Hge) as [Hs Hc].
      replace (Z.to_nat (Index s sep + 1)) with (S (Z.to_nat (Index s sep))) by lia.
      simpl. split; [now rewrite <- Hs|].
      rewrite Hc, orb_false_r.
      destruct (HasPrefix (String c (sliceTo s (Z.to_nat (Index s sep)))) sep) eqn:P;
        [|reflexivity].
      apply (HasPrefix_sliceTo (String c s) sep (S (Z.to_nat (Index s sep)))) in P.
      congruence.
Qed.

Lemma SplitN_two (explode : string -> Z -> list string) (s sep : string) :
  sep <> "" ->
  SplitN explode s sep 2
  = if (Index s sep <? 0)%Z then [s]
    else [sliceTo s (Z.to_nat (Index s sep));
          sliceFrom s (Z.to_nat (Index s sep) + String.length sep)].
Proof.
  intros Hsep. unfold SplitN, genSplit. simpl.
  destruct (String.eqb_spec sep ""); [congruence|].
  rewrite Z.add_0_r. reflexivity.
Qed.

(** In front of "://" nothing can start an occurrence that runs into it. *)
Lemma scheme_prefix (x rest : string) :
  x <> "" ->
  HasPrefix (x ++ "://" ++ rest) "://" = true -> HasPrefix x "://" = true.
Proof.
  intros Hx H.
  destruct x as [|c [|d [|e x]]]; [congruence| | |exact H]; simpl in H.
  - rewrite !andb_false_r in H. discriminate H.
  - rewrite !andb_false_r in H. discriminate H.
Qed.

Lemma Index_scheme (x rest : string) :
  Contains x "://" = false ->
  Index (x ++ "://" ++ rest) "://" = Z.of_nat (String.length x).
Proof.
  induction x as [|c x IH]; intros Hc; [reflexivity|].
  rewrite Contains_eq in Hc. apply orb_false_iff in Hc as [Hp Hc].
  change (String c x ++ "://" ++ rest)%string
    with (String c (x ++ "://" ++ rest))%string.
  cbn [Index].
  destruct (HasPrefix (String c (x ++ "://" ++ rest)) "://") eqn:E.
  - apply (scheme_prefix (String c x) rest) in E; [congruence | discriminate].
  - rewrite (IH Hc).
    destruct (Z.ltb_spec (Z.of_nat (String.length x)) 0); [lia|].
    simpl String.length. lia.
Qed.

Lemma append_assoc3 (x y z : string) :
  ((x ++ y) ++ z)%string = (x ++ y ++ z)%string.
Proof. induction x as [|c x IH]; simpl; [reflexivity | now rewrite IH]. Qed.

Lemma length_append (x y : string) :
  String.length (x ++ y) = (String.length x + String.length y)%nat.
Proof. induction x as [|c x IH]; simpl; [reflexivity | now rewrite IH]. Qed.

Lemma sliceTo_app (x y : string) : sliceTo (x ++ y) (String.length x) = x.
Proof. induction x as [|c x IH]; simpl; [now destruct y | now rewrite IH]. Qed.

Lemma sliceFrom_app (x y : string) : sliceFrom (x ++ y) (String.length x) = y.
Proof. induction x as [|c x IH]; simpl; [now destruct y | exact IH]. Qed.

(** ** NewDockerClient *)

Lemma NewDockerClient_eq (explode : string -> Z -> list string)
  (DefaultDockerHost host : string) (m : Z) :
  let h := effectiveHost DefaultDockerHost host in
  NewDockerClient explode DefaultDockerHost host m
  = if (Index h "://" <? 0)%Z
    then Returns (None, Some (Errorf_ "invalid docker host: %s" [OString h]))
    else Returns
           (Some (clientFor (sliceTo h (Z.to_nat (Index h "://")))
                    (sliceFrom h (Z.to_nat (Index h "://") + 3)) m),
            None).
Proof.
  cbv zeta. unfold NewDockerClient, effectiveHost, clientFor.
  rewrite SplitN_two by discriminate.
  destruct (Index _ "://" <? 0)%Z; [reflexivity|].
  change (String.length "://") with 3%nat.
  destruct (String.eqb (sliceTo _ _) "unix"); reflexivity.
Qed.

(** X7: [NewDockerClient] never panics, and it fails exactly on a host
    (the default one when none is given) that has no "://" in it; the error
    is "invalid docker host" with that host, and no client comes with it. *)
Theorem NewDockerClient_needs_a_scheme (explode : string -> Z -> list string)
  (DefaultDockerHost host : string) (m : Z) :
  let h := effectiveHost DefaultDockerHost host in
  let r := NewDockerClient explode DefaultDockerHost host m in
  r <> Panics
  /\ (Contains h "://" = false <->
      r = Returns (None, Some (Errorf_ "invalid docker host: %s" [OString h])))
  /\ (Contains h "://" = true <-> exists c, r = Returns (Some c, None)).
Proof.
  cbv zeta. rewrite NewDockerClient_eq. cbv zeta.
  pose proof (Index_Contains (effectiveHost DefaultDockerHost host) "://") as HI.
  destruct (Z.ltb_spec (Index (effectiveHost DefaultDockerHost host) "://") 0)
    as [Hlt|Hge].
  - apply HI in Hlt. rewrite Hlt.
    split; [discriminate|]. split; [tauto|].
    split; [discriminate | intros [c H]; discriminate H].
  - assert (Hc : Contains (effectiveHost DefaultDockerHost host) "://" = true).
    { apply not_false_iff_true. intros E. apply HI in E. lia. }
    rewrite Hc. split; [discriminate|].
    split; [split; discriminate|].
    split; [intros _; eexists; reflexivity | reflexivity].
Qed.

(** X8: a client that [NewDockerClient] returns is cut out of the host at
    the first "://": network, "://" and address give the host back, and the
    network holds no "://".  The buffer limit is kept as given, unchecked.
    On the network "unix" the base URL is "http://unix" and the transport
    dials the address on that network; on any other network the base URL is
    "http://" followed by the address and the transport is the default. *)
Theorem NewDockerClient_cuts_at_the_first_separator
  (explode : string -> Z -> list string) (DefaultDockerHost host : string)
  (m : Z) (c : DockerClient) :
  NewDockerClient explode DefaultDockerHost host m = Returns (Some c, None) ->
  (network c ++ "://" ++ addr c)%string = effectiveHost DefaultDockerHost host
  /\ Contains (network c) "://" = false
  /\ maxbuf c = m
  /\ c = clientFor (network c) (addr c) m
  /\ (network c = "unix" ->
      baseurl c = "http://unix"
      /\ Transport (client c) = Some ("unix", addr c))
  /\ (network c <> "unix" ->
      baseurl c = ("http://" ++ addr c)%string
      /\ Transport (client c) = None).
Proof.
  rewrite NewDockerClient_eq. cbv zeta.
  destruct (Z.ltb_spec (Index (effectiveHost DefaultDockerHost host) "://") 0)
    as [Hlt|Hge]; [discriminate|].
  intros [= <-].
  destruct (Index_found (effectiveHost DefaultDockerHost host) "://"
              ltac:(discriminate) Hge) as [Hs Hc].
  change (String.length "://") with 3%nat in Hs.
  set (net := sliceTo _ _) in *. set (a := sliceFrom _ _) in *.
  assert (P : network (clientFor net a m) = net /\ addr (clientFor net a m) = a
              /\ maxbuf (clientFor net a m) = m).
  { unfold clientFor. destruct (String.eqb net "unix"); repeat split. }
  destruct P as (-> & -> & ->).
  split; [now rewrite <- Hs|]. split; [exact Hc|]. split; [reflexivity|].
  split; [reflexivity|].
  unfold clientFor. split.
  - intros ->. split; reflexivity.
  - intros Hn. destruct (String.eqb_spec net "unix"); [congruence|].
    split; reflexivity.
Qed.

Lemma NewDockerClient_cuts_at_the_first_separator_witness :
  NewDockerClient (fun _ _ => []) "unix:///var/run/docker.sock" "" 4096
  = Returns (Some (clientFor "unix" "/var/run/docker.sock" 4096), None)
  /\ Contains (network (clientFor "unix" "/var/run/docker.sock" 4096)) "://"
     = false.
Proof.
  assert (H : NewDockerClient (fun _ _ => []) "unix:///var/run/docker.sock" "" 4096
              = Returns (Some (clientFor "unix" "/var/run/docker.sock" 4096), None))
    by reflexivity.
  split; [exact H|].
  exact (proj1 (proj2 (NewDockerClient_cuts_at_the_first_separator
                         (fun _ _ => []) "unix:///var/run/docker.sock" "" 4096
                         _ H))).
Defined.

(** X9: a host written as a network without "://", then "://", then any
    address gives the client for that network and that address; what follows
    the first "://" is the address whole, further "://" included. *)
Theorem NewDockerClient_of_network_and_address
  (explode : string -> Z -> list string) (DefaultDockerHost net a : string)
  (m : Z) :
  Contains net "://" = false ->
  NewDockerClient explode DefaultDockerHost (net ++ "://" ++ a) m
  = Returns (Some (clientFor net a m), None).
Proof.
  intros Hc. rewrite NewDockerClient_eq. cbv zeta.
  assert (He : effectiveHost DefaultDockerHost (net ++ "://" ++ a)
               = (net ++ "://" ++ a)%string).
  { unfold effectiveHost.
    destruct (String.eqb_spec (net ++ "://" ++ a) "") as [E|E]; [|reflexivity].
    destruct net; discriminate E. }
  rewrite He, (Index_scheme net a Hc).
  destruct (Z.ltb_spec (Z.of_nat (String.length net)) 0); [lia|].
  rewrite Nat2Z.id, sliceTo_app.
  rewrite <- append_assoc3.
  replace (String.length net + 3)%nat with (String.length (net ++ "://"))
    by (rewrite length_append; reflexivity).
  now rewrite sliceFrom_app.
Qed.

Lemma NewDockerClient_of_network_and_address_witness :
  Contains "tcp" "://" = false
  /\ NewDockerClient (fun _ _ => []) "unix:///var/run/docker.sock"
       ("tcp" ++ "://" ++ "10.0.0.5:2375/a://b") 1024
     = Returns (Some (clientFor "tcp" "10.0.0.5:2375/a://b" 1024), None).
Proof.
  split; [reflexivity|].
  exact (NewDockerClient_of_network_and_address (fun _ _ => [])
           "unix:///var/run/docker.sock" "tcp" "10.0.0.5:2375/a://b" 1024
           eq_refl).
Defined.

(** ** The calls on the engine *)

(** [DockerClient_call], case by case on what the libraries answer. *)
Lemma call_anatomy {W S B : Type} {E : Engine W S B} (c : DockerClient)
  (method uri : string) (okStatus : Z) (v : option Payload) (w : W) :
  DockerClient_call c method uri okStatus v w =
  match request c method uri v with
  | inr e => ((None, Some e), w, [])
  | inl req =>
      match fst (Do (client c) req w) with
      | inr e => ((None, Some e), snd (Do (client c) req w), [Sent (client c) req])
      | inl resp =>
          let w1 := snd (Do (client c) req w) in
          match NewBuffer (maxbuf c) with
          | inr e =>
              ((None, Some e), Close (RespBody resp) w1,
               [Sent (client c) req; Closed])
          | inl b0 =>
              let b := fst (fst (Copy b0 (RespBody resp) w1)) in
              let err := snd (fst (Copy b0 (RespBody resp) w1)) in
              let w2 := snd (Copy b0 (RespBody resp) w1) in
              ((Some b, verdict (baseurl c ++ uri) okStatus resp b err),
               Close (RespBody resp) w2,
               [Sent (client c) req; Copied; Closed])
          end
      end
  end.
Proof.
  unfold DockerClient_call.
  destruct (request c method uri v) as [req|e]; [|reflexivity].
  unfold ioBind at 1, send.
  destruct (Do (client c) req w) as [[resp|e] w1]; [|reflexivity].
  cbn [fst snd]. unfold ioBind, copy, close, ioRet.
  destruct (NewBuffer (maxbuf c)) as [b0|e]; [|reflexivity].
  destruct (Copy b0 (RespBody resp) w1) as [[b err] w2]. reflexivity.
Qed.

(** When the server has answered and the body is in the buffer, the status
    decides. *)
Lemma call_answered {W S B : Type} {E : Engine W S B} (c : DockerClient)
  (method uri : string) (okStatus : Z) (v : option Payload) (w : W)
  (resp : Response S) (bf : B) :
  answered c method uri v w resp bf ->
  result (DockerClient_call c method uri okStatus v w)
  = (Some bf, verdict (baseurl c ++ uri) okStatus resp bf None).
Proof.
  intros (req & b0 & Hr & Hd & Hb & Hc).
  rewrite call_anatomy, Hr, Hd, Hb. cbv zeta. rewrite Hc. reflexivity.
Qed.

Lemma call_nil_error {W S B : Type}
  {E : Engine W S B} (c : DockerClient) (method uri : string) (okStatus : Z)
  (v : option Payload) (w : W) :
  let r := DockerClient_call c method uri okStatus v w in
  result r <> (None, None)
  /\ (snd (result r) = None <->
      exists resp bf,
        answered c method uri v w resp bf
        /\ StatusCode resp = okStatus
        /\ fst (result r) = Some bf).
Proof.
  cbv zeta. rewrite call_anatomy. unfold answered.
  destruct (request c method uri v) as [req|e] eqn:Hr.
  2:{ split; [discriminate|]. split; [discriminate|].
      intros (resp & bf & (req & b0 & H & _) & _). discriminate H. }
  destruct (fst (Do (client c) req w)) as [resp|e] eqn:Hd.
  2:{ split; [discriminate|]. split; [discriminate|].
      intros (resp & bf & (req' & b0 & H & H' & _) & _).
      injection H as <-. rewrite Hd in H'. discriminate H'. }
  cbv zeta. destruct (NewBuffer (maxbuf c)) as [b0|e] eqn:Hb.
  2:{ split; [discriminate|]. split; [discriminate|].
      intros (resp' & bf & (req' & b0 & _ & _ & H & _) & _). discriminate H. }
  split; [discriminate|]. unfold result, verdict. cbn [fst snd].
  destruct (Copy b0 (RespBody resp) (snd (Do (client c) req w)))
    as [[bf cerr] w2] eqn:Hc.
  cbn [fst snd]. split.
  - intros H. destruct cerr as [e|]; [discriminate H|].
    destruct (Z.eqb_spec (StatusCode resp) okStatus) as [Hs|Hs]; [|discriminate H].
    exists resp, bf. split; [|split; [exact Hs | reflexivity]].
    exists req, b0. repeat split; try reflexivity; try assumption.
    now rewrite Hc.
  - intros (resp' & bf' & (req' & b0' & H1 & H2 & H3 & H4) & Hs & _).
    injection H1 as <-. rewrite Hd in H2. injection H2 as <-.
    injection H3 as <-. rewrite Hc in H4. injection H4 as _ ->.
    now rewrite Hs, Z.eqb_refl.
Qed.

(** X10: [DockerClient_call] never returns neither buffer nor error, and it
    returns a nil error exactly when the request could be built, the server
    answered, the buffer could be made, the body was copied into it without
    error and the status is the expected one; the buffer returned is then the
    one holding the body, and the steps were: send, copy, close. *)
Theorem call_succeeds_on_the_expected_status_only {W S B : Type}
  {E : Engine W S B} (c : DockerClient) (method uri : string) (okStatus : Z)
  (v : option Payload) (w : W) :
  let r := DockerClient_call c method uri okStatus v w in
  result r <> (None, None)
  /\ (snd (result r) = None <->
      exists resp bf,
        answered c method uri v w resp bf
        /\ StatusCode resp = okStatus
        /\ fst (result r) = Some bf)
  /\ (snd (result r) = None ->
      exists req, trail r = [Sent (client c) req; Copied; Closed]).
Proof.
  cbv zeta.
  destruct (call_nil_error c method uri okStatus v w) as [H1 H2].
  split; [exact H1|]. split; [exact H2|].
  intros H. apply H2 in H as (resp & bf & (req & b0 & Hr & Hd & Hb & Hc) & _).
  exists req. rewrite call_anatomy, Hr, Hd, Hb. reflexivity.
Qed.

(** X11: [DockerClient_call] sends at most one request and closes exactly
    the body it was given.  If the request cannot be built (bad method or
    URL, or a value that does not encode) nothing is sent.  If the server
    does not answer, the request is the only step.  If it answers, the body
    is closed once, as the last step, whether or not the buffer could be made
    and the copy succeeded. *)
Theorem call_sends_once_and_closes_the_body {W S B : Type} {E : Engine W S B}
  (c : DockerClient) (method uri : string) (okStatus : Z)
  (v : option Payload) (w : W) :
  let r := DockerClient_call c method uri okStatus v w in
  (steps isSent (trail r) <= 1)%nat
  /\ (forall e, request c method uri v = inr e ->
      r = ((None, Some e), w, []))
  /\ (forall req, request c method uri v = inl req ->
      (forall e, fst (Do (client c) req w) = inr e ->
       trail r = [Sent (client c) req] /\ result r = (None, Some e))
      /\ (forall resp, fst (Do (client c) req w) = inl resp ->
          steps isClosed (trail r) = 1%nat
          /\ exists mid,
               trail r = Sent (client c) req :: mid ++ [Closed]
               /\ steps isSent mid = 0%nat /\ steps isClosed mid = 0%nat)).
Proof.
  cbv zeta. rewrite call_anatomy.
  destruct (request c method uri v) as [req|e] eqn:Hr.
  2:{ split; [unfold steps; simpl; lia|].
      split; [now intros e' [= <-] | intros req H; discriminate H]. }
  destruct (fst (Do (client c) req w)) as [resp|e] eqn:Hd.
  2:{ split; [unfold steps; simpl; lia|].
      split; [intros e' H; discriminate H|].
      intros req' [= <-]. rewrite Hd. split.
      - intros e' [= <-]. split; reflexivity.
      - intros resp H. discriminate H. }
  cbv zeta.
  destruct (NewBuffer (maxbuf c)) as [b0|e] eqn:Hb;
    (split; [unfold steps; simpl; lia|]);
    (split; [intros e' H; discriminate H|]);
    intros req' [= <-]; rewrite Hd;
    (split; [intros e' H; discriminate H|]);
    intros resp' [= <-]; (split; [reflexivity|]).
  - exists [Copied]. repeat split.
  - exists []. repeat split.
Qed.

Lemma call_sends_once_and_closes_the_body_witness :
  fst (Do (Engine := cannedEngine)
         (client (clientFor "tcp" "10.0.0.5:2375" 64))
         (mkRequest "GET" "http://10.0.0.5:2375/exec/e1/json" None None)
         [inl (mkResponse 500 ("oops", None))])
  = inl (mkResponse 500 ("oops", None))
  /\ steps isClosed
       (trail (DockerClient_call (E := cannedEngine)
                 (clientFor "tcp" "10.0.0.5:2375" 64) "GET" "/exec/e1/json"
                 StatusOK None [inl (mkResponse 500 ("oops", None))]))
     = 1%nat.
Proof.
  split; [reflexivity|].
  destruct (call_sends_once_and_closes_the_body (E := cannedEngine)
              (clientFor "tcp" "10.0.0.5:2375" 64) "GET" "/exec/e1/json"
              StatusOK None [inl (mkResponse 500 ("oops", None))])
    as (_ & _ & H).
  destruct (H (mkRequest "GET" "http://10.0.0.5:2375/exec/e1/json" None None)
              eq_refl) as (_ & H').
  exact (proj1 (H' (mkResponse 500 ("oops", None)) eq_refl)).
Defined.

Lemma CreateExec_eq {W S B : Type} {E : Engine W S B} (c : DockerClient)
  (containerID : string) (cmd : list string) (w : W) :
  let r := DockerClient_call c "POST" ("/containers/" ++ containerID ++ "/exec")
             StatusCreated (Some (CreateExecData false true true false cmd)) w in
  CreateExec c containerID cmd w
  = ((match snd (result r) with
      | Some e => Returns ("", Some (Errorf_ "create exec: %v" [OError e]))
      | None =>
          match fst (result r) with
          | None => Panics
          | Some b =>
              match snd (DecodeId (Bytes b)) with
              | Some e =>
                  Returns ("", Some (Errorf_ "error in create exec: %v" [OError e]))
              | None => Returns (fst (DecodeId (Bytes b)), None)
              end
          end
      end, snd (fst r)), trail r).
Proof.
  cbv zeta. unfold CreateExec, ioBind, result, trail.
  destruct (DockerClient_call _ _ _ _ _ w) as [[[b [e|]] w1] s]; cbn [fst snd].
  - unfold ioRet. now rewrite app_nil_r.
  - destruct b as [b|]; [|unfold ioRet; now rewrite app_nil_r].
    destruct (DecodeId (Bytes b)) as [id [e|]]; unfold ioRet; cbn [fst snd];
      now rewrite app_nil_r.
Qed.

Lemma StartExec_eq {W S B : Type} {E : Engine W S B} (c : DockerClient)
  (execID : string) (w : W) :
  let r := DockerClient_call c "POST" ("/exec/" ++ execID ++ "/start")
             StatusOK (Some (StartExecData false true)) w in
  StartExec c execID w
  = ((match snd (result r) with
      | Some e =>
          (None, Some (Errorf_ "error in exec start: %v %s"
                         [OError e; OBuffer (option_map Bytes (fst (result r)))]))
      | None => (fst (result r), None)
      end, snd (fst r)), trail r).
Proof.
  cbv zeta. unfold StartExec, ioBind, result, trail.
  destruct (DockerClient_call _ _ _ _ _ w) as [[[b [e|]] w1] s]; cbn [fst snd];
    unfold ioRet; now rewrite app_nil_r.
Qed.

Lemma InspectExec_eq {W S B : Type} {E : Engine W S B} (c : DockerClient)
  (execID : string) (w : W) :
  let r := DockerClient_call c "GET" ("/exec/" ++ execID ++ "/json")
             StatusOK None w in
  InspectExec c execID w
  = ((match snd (result r) with
      | Some e =>
          Returns (0, Some (Errorf_ "error in exec inspect: %v %s"
                              [OError e;
                               OBuffer (option_map Bytes (fst (result r)))]))
      | None =>
          match fst (result r) with
          | None => Panics
          | Some b =>
              match snd (DecodeExitCode (Bytes b)) with
              | Some e =>
                  Returns (0, Some (Errorf_ "error in exec inspect: %v %s"
                                      [OError e; OBuffer (Some (Bytes b))]))
              | None => Returns (fst (DecodeExitCode (Bytes b)), None)
              end
          end
      end, snd (fst r)), trail r).
Proof.
  cbv zeta. unfold InspectExec, ioBind, result, trail.
  destruct (DockerClient_call _ _ _ _ _ w) as [[[b [e|]] w1] s]; cbn [fst snd].
  - unfold ioRet. now rewrite app_nil_r.
  - destruct b as [b|]; [|unfold ioRet; now rewrite app_nil_r].
    destruct (DecodeExitCode (Bytes b)) as [code [e|]]; unfold ioRet;
      cbn [fst snd]; now rewrite app_nil_r.
Qed.

Lemma call_buffer_or_error {W S B : Type} {E : Engine W S B} (c : DockerClient)
  (method uri : string) (okStatus : Z) (v : option Payload) (w : W) :
  snd (result (DockerClient_call c method uri okStatus v w)) = None ->
  exists bf, fst (result (DockerClient_call c method uri okStatus v w)) = Some bf.
Proof.
  intros H. apply call_nil_error in H as (resp & bf & _ & _ & H). now exists bf.
Qed.

(** X12: the three API functions never panic (the buffer is read only when
    there is one) and never return a value together with an error: with an
    error [CreateExec] returns the empty id, [InspectExec] the exit code 0
    and [StartExec] no buffer, even when the call under it returned one.
    Without an error, the server has answered with the expected status (201
    for [CreateExec], 200 for the others), the body was read whole, and the
    value is the id or exit code decoded from it, or the buffer holding it. *)
Theorem exec_functions_return_a_value_or_an_error {W S B : Type}
  {E : Engine W S B} (c : DockerClient) (id : string) (cmd : list string)
  (w : W) :
  (exists v err,
     result (CreateExec c id cmd w) = Returns (v, err)
     /\ (err <> None -> v = "")
     /\ (err = None ->
         exists resp bf,
           answered c "POST" ("/containers/" ++ id ++ "/exec")
             (Some (CreateExecData false true true false cmd)) w resp bf
           /\ StatusCode resp = StatusCreated
           /\ DecodeId (Bytes bf) = (v, None)))
  /\ (exists b err,
        result (StartExec c id w) = (b, err)
        /\ (err <> None -> b = None)
        /\ (err = None ->
            exists resp bf,
              answered c "POST" ("/exec/" ++ id ++ "/start")
                (Some (StartExecData false true)) w resp bf
              /\ StatusCode resp = StatusOK
              /\ b = Some bf))
  /\ (exists v err,
        result (InspectExec c id w) = Returns (v, err)
        /\ (err <> None -> v = 0)
        /\ (err = None ->
            exists resp bf,
              answered c "GET" ("/exec/" ++ id ++ "/json") None w resp bf
              /\ StatusCode resp = StatusOK
              /\ DecodeExitCode (Bytes bf) = (v, None))).
Proof.
  split; [|split].
  - rewrite CreateExec_eq. cbv zeta. unfold result at 1. cbn [fst].
    destruct (snd (result (DockerClient_call c "POST" _ StatusCreated _ w)))
      as [e|] eqn:He.
    + eexists _, _. split; [reflexivity|]. split; [reflexivity | discriminate].
    + apply call_nil_error in He as (resp & bf & Ha & Hs & ->).
      destruct (DecodeId (Bytes bf)) as [v [e|]] eqn:Hd; cbn [fst snd].
      * eexists _, _. split; [reflexivity|]. split; [reflexivity | discriminate].
      * eexists _, _. split; [reflexivity|]. split; [congruence|].
        intros _. now exists resp, bf.
  - rewrite StartExec_eq. cbv zeta. unfold result at 1. cbn [fst].
    destruct (snd (result (DockerClient_call c "POST" _ StatusOK _ w)))
      as [e|] eqn:He.
    + eexists _, _. split; [reflexivity|]. split; [reflexivity | discriminate].
    + apply call_nil_error in He as (resp & bf & Ha & Hs & ->).
      eexists _, _. split; [reflexivity|]. split; [congruence|].
      intros _. now exists resp, bf.
  - rewrite InspectExec_eq. cbv zeta. unfold result at 1. cbn [fst].
    destruct (snd (result (DockerClient_call c "GET" _ StatusOK _ w)))
      as [e|] eqn:He.
    + eexists _, _. split; [reflexivity|]. split; [reflexivity | discriminate].
    + apply call_nil_error in He as (resp & bf & Ha & Hs & ->).
      destruct (DecodeExitCode (Bytes bf)) as [v [e|]] eqn:Hd; cbn [fst snd].
      * eexists _, _. split; [reflexivity|]. split; [reflexivity | discriminate].
      * eexists _, _. split; [reflexivity|]. split; [congruence|].
        intros _. now exists resp, bf.
Qed.

(** X13: an answer with a status other than the expected one is an error
    that carries the URL, the status and the body as far as the buffer holds
    it.  [StartExec] and [InspectExec] return it wrapped, the body once more
    beside it, and [CreateExec] returns it wrapped; the value is the zero
    value and the buffer is not handed up. *)
Theorem unexpected_status_is_reported_with_the_body {W S B : Type}
  {E : Engine W S B} (c : DockerClient) (id : string) (cmd : list string)
  (w : W) (resp : Response S) (bf : B) :
  (answered c "POST" ("/containers/" ++ id ++ "/exec")
     (Some (CreateExecData false true true false cmd)) w resp bf ->
   StatusCode resp <> StatusCreated ->
   result (CreateExec c id cmd w)
   = Returns
       ("", Some (Errorf_ "create exec: %v"
                    [OError (badStatus (baseurl c ++ "/containers/" ++ id ++ "/exec")
                               (StatusCode resp) (Bytes bf))])))
  /\ (answered c "POST" ("/exec/" ++ id ++ "/start")
        (Some (StartExecData false true)) w resp bf ->
      StatusCode resp <> StatusOK ->
      result (StartExec c id w)
      = (None,
         Some (Errorf_ "error in exec start: %v %s"
                 [OError (badStatus (baseurl c ++ "/exec/" ++ id ++ "/start")
                            (StatusCode resp) (Bytes bf));
                  OBuffer (Some (Bytes bf))])))
  /\ (answered c "GET" ("/exec/" ++ id ++ "/json") None w resp bf ->
      StatusCode resp <> StatusOK ->
      result (InspectExec c id w)
      = Returns
          (0, Some (Errorf_ "error in exec inspect: %v %s"
                      [OError (badStatus (baseurl c ++ "/exec/" ++ id ++ "/json")
                                 (StatusCode resp) (Bytes bf));
                       OBuffer (Some (Bytes bf))]))).
Proof.
  split; [|split]; intros Ha Hs.
  - rewrite CreateExec_eq. cbv zeta. unfold result at 1. cbn [fst].
    rewrite (call_answered _ _ _ _ _ _ _ _ Ha). unfold verdict. cbn [fst snd].
    destruct (Z.eqb_spec (StatusCode resp) StatusCreated); [congruence|].
    reflexivity.
  - rewrite StartExec_eq. cbv zeta. unfold result at 1. cbn [fst].
    rewrite (call_answered _ _ _ _ _ _ _ _ Ha). unfold verdict. cbn [fst snd].
    destruct (Z.eqb_spec (StatusCode resp) StatusOK); [congruence|].
    reflexivity.
  - rewrite InspectExec_eq. cbv zeta. unfold result at 1. cbn [fst].
    rewrite (call_answered _ _ _ _ _ _ _ _ Ha). unfold verdict. cbn [fst snd].
    destruct (Z.eqb_spec (StatusCode resp) StatusOK); [congruence|].
    reflexivity.
Qed.

Lemma unexpected_status_is_reported_with_the_body_witness :
  answered (E := cannedEngine) (clientFor "tcp" "10.0.0.5:2375" 64)
    "GET" ("/exec/" ++ "e1" ++ "/json") None
    [inl (mkResponse 404 ("No such exec instance", None))]
    (mkResponse 404 ("No such exec instance", None))
    (64, "No such exec instance")
  /\ result (InspectExec (E := cannedEngine) (clientFor "tcp" "10.0.0.5:2375" 64)
               "e1" [inl (mkResponse 404 ("No such exec instance", None))])
     = Returns
         (0, Some (Errorf_ "error in exec inspect: %v %s"
                     [OError (badStatus "http://10.0.0.5:2375/exec/e1/json" 404
                                "No such exec instance");
                      OBuffer (Some "No such exec instance")])).
Proof.
  assert (A : answered (E := cannedEngine) (clientFor "tcp" "10.0.0.5:2375" 64)
                "GET" ("/exec/" ++ "e1" ++ "/json") None
                [inl (mkResponse 404 ("No such exec instance", None))]
                (mkResponse 404 ("No such exec instance", None))
                (64, "No such exec instance")).
  { eexists _, _. repeat split. }
  split; [exact A|].
  refine (proj2 (proj2 (unexpected_status_is_reported_with_the_body
                          (E := cannedEngine) (clientFor "tcp" "10.0.0.5:2375" 64)
                          "e1" [] _ _ _)) A _).
  discriminate.
Defined.

Lemma request_carries {W S B : Type} {E : Engine W S B} (c : DockerClient)
  (method uri : string) (v : option Payload) (req : Request) :
  request c method uri v = inl req ->
  carries method (baseurl c ++ uri)
    (option_map (fun data => fst (Encode data)) v) req.
Proof.
  unfold request, carries.
  destruct (NewRequest method _); [discriminate|].
  destruct v as [data|]; simpl.
  - destruct (Encode data) as [b [e|]]; [discriminate|].
    intros [= <-]. repeat split.
  - intros [= <-]. repeat split.
Qed.

Lemma call_sent {W S B : Type} {E : Engine W S B} (c : DockerClient)
  (method uri : string) (okStatus : Z) (v : option Payload) (w : W)
  (hc : HttpClient) (req : Request) :
  In (Sent hc req) (trail (DockerClient_call c method uri okStatus v w)) ->
  hc = client c /\ request c method uri v = inl req.
Proof.
  rewrite call_anatomy.
  destruct (request c method uri v) as [req'|e]; [|intros []].
  destruct (fst (Do (client c) req' w)) as [resp|e].
  - cbv zeta. destruct (NewBuffer (maxbuf c)); unfold trail; simpl;
      intros H; repeat (destruct H as [H|H]; try discriminate H);
      try contradiction; injection H as <- <-; now split.
  - unfold trail; simpl. intros [H|[]]. injection H as <- <-. now split.
Qed.

(** X14: what the three functions put on the wire.  Each adds no step to
    those of the one call it makes, so it sends at most one request, through
    the client's own [http.Client].  [CreateExec] posts the encoding of
    (AttachStdin false, AttachStdout true, AttachStderr true, Tty false, Cmd)
    to [/containers/<id>/exec]; [StartExec] posts that of (Detach false, Tty
    true) to [/exec/<id>/start]; both as application/json.  [InspectExec] gets
    [/exec/<id>/json] with no body and no content type.  The URL is the base
    URL of the client followed by that path, the id put in as it is. *)
Theorem exec_functions_send_these_requests {W S B : Type} {E : Engine W S B}
  (c : DockerClient) (id : string) (cmd : list string) (w : W)
  (hc : HttpClient) (req : Request) :
  (In (Sent hc req) (trail (CreateExec c id cmd w)) ->
   hc = client c
   /\ carries "POST" (baseurl c ++ "/containers/" ++ id ++ "/exec")
        (Some (fst (Encode (CreateExecData false true true false cmd)))) req)
  /\ (In (Sent hc req) (trail (StartExec c id w)) ->
      hc = client c
      /\ carries "POST" (baseurl c ++ "/exec/" ++ id ++ "/start")
           (Some (fst (Encode (StartExecData false true)))) req)
  /\ (In (Sent hc req) (trail (InspectExec c id w)) ->
      hc = client c
      /\ carries "GET" (baseurl c ++ "/exec/" ++ id ++ "/json") None req)
  /\ (steps isSent (trail (CreateExec c id cmd w)) <= 1)%nat
  /\ (steps isSent (trail (StartExec c id w)) <= 1)%nat
  /\ (steps isSent (trail (InspectExec c id w)) <= 1)%nat.
Proof.
  assert (Hone : forall method uri ok v,
             (steps isSent (trail (DockerClient_call c method uri ok v w)) <= 1)%nat).
  { intros method uri ok v. rewrite call_anatomy.
    destruct (request c method uri v) as [r|e]; [|unfold steps; simpl; lia].
    destruct (fst (Do (client c) r w)); [|unfold steps; simpl; lia].
    cbv zeta. destruct (NewBuffer (maxbuf c)); unfold steps; simpl; lia. }
  rewrite CreateExec_eq, StartExec_eq, InspectExec_eq. cbv zeta.
  unfold trail at 1 3 5 7 9 11. cbn [snd].
  repeat split; try apply Hone;
    try (apply call_sent in H as [H _]; exact H);
    apply call_sent in H as [_ H]; apply request_carries in H;
    destruct H as (H1 & H2 & H3 & H4); assumption.
Qed.

Lemma exec_functions_send_these_requests_witness :
  In (Sent (mkHttpClient None)
        (mkRequest "GET" "http://10.0.0.5:2375/exec/e1/json" None None))
     (trail (InspectExec (E := cannedEngine) (clientFor "tcp" "10.0.0.5:2375" 64)
               "e1" []))
  /\ carries "GET" "http://10.0.0.5:2375/exec/e1/json" None
       (mkRequest "GET" "http://10.0.0.5:2375/exec/e1/json" None None).
Proof.
  assert (H : In (Sent (mkHttpClient None)
                    (mkRequest "GET" "http://10.0.0.5:2375/exec/e1/json" None None))
                 (trail (InspectExec (E := cannedEngine)
                           (clientFor "tcp" "10.0.0.5:2375" 64) "e1" [])))
    by (left; reflexivity).
  split; [exact H|].
  destruct (exec_functions_send_these_requests (E := cannedEngine)
              (clientFor "tcp" "10.0.0.5:2375" 64) "e1" [] []
              (mkHttpClient None)
              (mkRequest "GET" "http://10.0.0.5:2375/exec/e1/json" None None))
    as (_ & _ & H3 & _).
  exact (proj2 (H3 H)).
Defined.

Lemma clientFor_fields (net a : string) (m : Z) :
  network (clientFor net a m) = net
  /\ addr (clientFor net a m) = a
  /\ maxbuf (clientFor net a m) = m
  /\ baseurl (clientFor net a m)
     = (if String.eqb net "unix" then "http://unix" else "http://" ++ a)%string
  /\ Transport (client (clientFor net a m))
     = if String.eqb net "unix" then Some (net, a) else None.
Proof. unfold clientFor. destruct (String.eqb net "unix"); repeat split. Qed.

Lemma NewDockerClient_returns (explode : string -> Z -> list string)
  (DefaultDockerHost host : string) (m : Z) (c : DockerClient) :
  NewDockerClient explode DefaultDockerHost host m = Returns (Some c, None) ->
  c = clientFor (network c) (addr c) m.
Proof.
  rewrite NewDockerClient_eq. cbv zeta.
  destruct (Index _ "://" <? 0)%Z; [discriminate|].
  intros [= <-].
  destruct (clientFor_fields
              (sliceTo (effectiveHost DefaultDockerHost host)
                 (Z.to_nat (Index (effectiveHost DefaultDockerHost host) "://")))
              (sliceFrom (effectiveHost DefaultDockerHost host)
                 (Z.to_nat (Index (effectiveHost DefaultDockerHost host) "://") + 3))
              m) as (-> & -> & _).
  reflexivity.
Qed.

(** X15: where the requests of a client made by [NewDockerClient] go.  For
    a host on the network "unix" every request has the URL "http://unix"
    followed by the path, whatever the socket is, and goes through a transport
    that dials the socket address on "unix"; for a host on any other network
    the URL is "http://", the address and the path, on the default
    transport. *)
Theorem requests_go_where_the_host_says {W S B : Type} {E : Engine W S B}
  (explode : string -> Z -> list string) (DefaultDockerHost host : string)
  (m : Z) (c : DockerClient) (method uri : string) (okStatus : Z)
  (v : option Payload) (w : W) (hc : HttpClient) (req : Request) :
  NewDockerClient explode DefaultDockerHost host m = Returns (Some c, None) ->
  In (Sent hc req) (trail (DockerClient_call c method uri okStatus v w)) ->
  Method req = method
  /\ (network c = "unix" ->
      URL req = ("http://unix" ++ uri)%string
      /\ Transport hc = Some ("unix", addr c))
  /\ (network c <> "unix" ->
      URL req = ("http://" ++ addr c ++ uri)%string
      /\ Transport hc = None).
Proof.
  intros Hc Hin. apply NewDockerClient_returns in Hc.
  apply call_sent in Hin as [-> Hr].
  apply request_carries in Hr as (Hm & Hu & _).
  destruct (clientFor_fields (network c) (addr c) m) as (_ & _ & _ & Hb & Ht).
  rewrite <- Hc in Hb, Ht. rewrite Hu, Hb, Ht.
  split; [exact Hm|]. split.
  - intros ->. split; reflexivity.
  - intros Hn. destruct (String.eqb_spec (network c) "unix"); [congruence|].
    split; [apply append_assoc3 | reflexivity].
Qed.

Lemma requests_go_where_the_host_says_witness :
  NewDockerClient (fun _ _ => []) "unix:///var/run/docker.sock" "" 64
  = Returns (Some (clientFor "unix" "/var/run/docker.sock" 64), None)
  /\ In (Sent (mkHttpClient (Some ("unix", "/var/run/docker.sock")))
           (mkRequest "GET" "http://unix/exec/e1/json" None None))
        (trail (DockerClient_call (E := cannedEngine)
                  (clientFor "unix" "/var/run/docker.sock" 64)
                  "GET" "/exec/e1/json" StatusOK None []))
  /\ Method (mkRequest "GET" "http://unix/exec/e1/json" None None) = "GET".
Proof.
  assert (H1 : NewDockerClient (fun _ _ => []) "unix:///var/run/docker.sock" "" 64
               = Returns (Some (clientFor "unix" "/var/run/docker.sock" 64), None))
    by reflexivity.
  assert (H2 : In (Sent (mkHttpClient (Some ("unix", "/var/run/docker.sock")))
                     (mkRequest "GET" "http://unix/exec/e1/json" None None))
                  (trail (DockerClient_call (E := cannedEngine)
                            (clientFor "unix" "/var/run/docker.sock" 64)
                            "GET" "/exec/e1/json" StatusOK None [])))
    by (left; reflexivity).
  split; [exact H1|]. split; [exact H2|].
  exact (proj1 (requests_go_where_the_host_says (E := cannedEngine)
                  (fun _ _ => []) "unix:///var/run/docker.sock" "" 64 _
                  "GET" "/exec/e1/json" StatusOK None [] _ _ H1 H2)).
Defined.
